(** * PowershellAgent: the two tool functions and the subprocess boundary

    A shallow embedding of [execute_powershell_command] and
    [search_powershell_command] of [PowershellAgent.py].  Both functions
    call [subprocess.run] inside a [try] block; the embedding keeps the
    call, its keyword arguments, the [try]/[except] clauses and the string
    operations as they are written, and makes the operating system an
    explicit part of the state.

    The second half embeds the shell around the agent: [run_agent],
    [show_config], [show_examples] and the prompt loop, with the console,
    the prompt and the agent as oracles of the session. *)

From Stdlib Require Import List String Ascii Bool.
From Stdlib Require Import NArith ZArith QArith DecimalString Lia.
Import ListNotations.
Close Scope Q_scope.

Set Implicit Arguments.

(** ** Python text *)

Module Py.

(** A Python [str] is a sequence of Unicode code points. *)
Definition codepoint := N.
Definition str := list codepoint.

(** A literal of the source, written as a Rocq string (all literals of the
    two functions are ASCII apart from the line feed of [NL]). *)
Definition lit (s : string) : str :=
  map N_of_ascii (list_ascii_of_string s).

Definition NL : str := [10%N].

(** [str.isspace] on one code point: the table of CPython's
    [_PyUnicode_IsWhitespace]. *)
Definition isspace (c : codepoint) : bool :=
  ((9 <=? c) && (c <=? 13) || (28 <=? c) && (c <=? 32)
   || (c =? 133) || (c =? 160) || (c =? 5760)
   || (8192 <=? c) && (c <=? 8202)
   || (c =? 8232) || (c =? 8233) || (c =? 8239) || (c =? 8287)
   || (c =? 12288))%N.

Fixpoint lstrip (s : str) : str :=
  match s with
  | c :: s' => if isspace c then lstrip s' else s
  | [] => []
  end.

Definition rstrip (s : str) : str := rev (lstrip (rev s)).

(** [s.strip()] with no argument. *)
Definition strip (s : str) : str := rstrip (lstrip s).

(** Truth value of a [str]: the empty string is false. *)
Definition truthy (s : str) : bool :=
  match s with [] => false | _ :: _ => true end.

(** *** The exception classes that can reach the two [try] blocks *)

Inductive pyclass :=
| BaseException
| KeyboardInterrupt
| SystemExit
| Exception
| OSError
| FileNotFoundError
| PermissionError
| ValueError
| SubprocessError
| TimeoutExpired.

Definition pyclass_eqb (a b : pyclass) : bool :=
  match a, b with
  | BaseException, BaseException | KeyboardInterrupt, KeyboardInterrupt
  | SystemExit, SystemExit | Exception, Exception | OSError, OSError
  | FileNotFoundError, FileNotFoundError
  | PermissionError, PermissionError | ValueError, ValueError
  | SubprocessError, SubprocessError | TimeoutExpired, TimeoutExpired => true
  | _, _ => false
  end.

(** Method resolution order of each class, as in CPython. *)
Definition mro (c : pyclass) : list pyclass :=
  match c with
  | BaseException => [BaseException]
  | KeyboardInterrupt => [KeyboardInterrupt; BaseException]
  | SystemExit => [SystemExit; BaseException]
  | Exception => [Exception; BaseException]
  | OSError => [OSError; Exception; BaseException]
  | FileNotFoundError =>
      [FileNotFoundError; OSError; Exception; BaseException]
  | PermissionError =>
      [PermissionError; OSError; Exception; BaseException]
  | ValueError => [ValueError; Exception; BaseException]
  | SubprocessError => [SubprocessError; Exception; BaseException]
  | TimeoutExpired =>
      [TimeoutExpired; SubprocessError; Exception; BaseException]
  end.

Definition issubclass (c d : pyclass) : bool :=
  existsb (pyclass_eqb d) (mro c).

(** A raised exception object: its class and what [str(e)] gives. *)
Record exc := { exc_class : pyclass; exc_str : str }.

Definition isinstance (e : exc) (c : pyclass) : bool :=
  issubclass (exc_class e) c.

End Py.

Import Py.

(** ** The interpreter state: raising, returning, [try] / [except] *)

Module Subprocess.

(** The keyword arguments the two functions pass to [subprocess.run]. *)
Record run_args := {
  args : list str;
  capture_output : bool;
  text : bool;
  timeout : option Q;        (* seconds *)
  shell : bool
}.

(** [subprocess.CompletedProcess]; with [capture_output=True] and
    [text=True] both streams are [str]. *)
Record CompletedProcess := {
  returncode : Z;
  stdout : str;
  stderr : str
}.

(** What the operating system does with one launch request, were it left
    to finish: either [subprocess.run] fails with an exception (the
    interpreter is missing, access is denied, the argument holds a NUL,
    the user interrupts), or the child runs for [elapsed] seconds and
    exits. *)
Inductive behaviour :=
| Fault (e : exc)
| Runs (elapsed : Q) (rc : Z) (out err : str).

(** The world outside the function.  [oracle n a] is the behaviour of the
    [n]-th launch of the process lifetime when it is asked for with
    arguments [a]; [calls] is the log of the launches made so far, oldest
    first; [timeout_text a] is [str()] of the [TimeoutExpired] object that
    [subprocess.run] builds for [a]. *)
Record World := {
  oracle : nat -> run_args -> behaviour;
  timeout_text : run_args -> str;
  calls : list run_args
}.

Inductive outcome (A : Type) :=
| Return (a : A)
| Raise (e : exc).
Arguments Raise {A} e.

Definition M (A : Type) : Type := World -> outcome A * World.

Definition ret {A} (a : A) : M A := fun w => (Return a, w).

Definition raise {A} (e : exc) : M A := fun w => (Raise e, w).

Definition bind {A B} (m : M A) (k : A -> M B) : M B :=
  fun w =>
    match m w with
    | (Return a, w') => k a w'
    | (Raise e, w') => (Raise e, w')
    end.

(** One [except C as e: h] clause. *)
Definition clause (A : Type) : Type := (pyclass * (exc -> M A))%type.

(** The clauses are tried in the order they are written; an exception no
    clause matches goes on to the caller. *)
Fixpoint dispatch {A} (cs : list (clause A)) (e : exc) : M A :=
  match cs with
  | [] => raise e
  | (c, h) :: cs' => if isinstance e c then h e else dispatch cs' e
  end.

Definition try_except {A} (body : M A) (cs : list (clause A)) : M A :=
  fun w =>
    match body w with
    | (Return a, w') => (Return a, w')
    | (Raise e, w') => dispatch cs e w'
    end.

(** The deadline of [subprocess.run]: a child that needs more than
    [timeout] seconds is killed and [TimeoutExpired] is raised. *)
Definition expired (elapsed : Q) (limit : option Q) : bool :=
  match limit with
  | Some t => negb (Qle_bool elapsed t)
  | None => false
  end.

Definition record_call (a : run_args) (w : World) : World :=
  {| oracle := oracle w;
     timeout_text := timeout_text w;
     calls := calls w ++ [a] |}.

(** [subprocess.run(args, capture_output=, text=, timeout=, shell=)]. *)
Definition run (a : run_args) : M CompletedProcess :=
  fun w =>
    let w' := record_call a w in
    match oracle w (List.length (calls w)) a with
    | Fault e => (Raise e, w')
    | Runs elapsed rc out err =>
        if expired elapsed (timeout a)
        then (Raise {| exc_class := TimeoutExpired;
                       exc_str := timeout_text w a |}, w')
        else (Return {| returncode := rc; stdout := out; stderr := err |},
              w')
    end.

End Subprocess.

Import Subprocess.

Declare Scope py_scope.
Delimit Scope py_scope with py.
Notation "x <- m ;; k" := (bind m (fun x => k))
  (at level 61, m at next level, right associativity) : py_scope.
Notation "'TRY' body 'EXCEPT' cs" := (try_except body cs)
  (at level 62, body at level 61) : py_scope.
Infix "+++" := (@app codepoint) (at level 60, right associativity) : py_scope.
Open Scope py_scope.

(** ** The two tools *)

Definition execute_powershell_command (command : str) : M str :=
  TRY
    (result <- run {| args := [lit "powershell"; lit "-Command"; command];
                      capture_output := true;
                      text := true;
                      timeout := Some 30%Q;
                      shell := false |} ;;
     if (returncode result =? 0)%Z then
       let output := strip (stdout result) in
       ret (if truthy output then output
            else lit "Command executed successfully with no output.")
     else
       let error := strip (stderr result) in
       ret (lit "Error executing command: " +++ error))
  EXCEPT
    [ (TimeoutExpired, fun _ =>
         ret (lit "Error: Command execution timed out (30 seconds limit)."));
      (Exception, fun e => ret (lit "Error: " +++ exc_str e)) ].

Definition search_powershell_command (query : str) : M str :=
  TRY
    (let help_command :=
       lit "Get-Help " +++ query +++ lit " -ErrorAction SilentlyContinue" in
     result <- run {| args := [lit "powershell"; lit "-Command"; help_command];
                      capture_output := true;
                      text := true;
                      timeout := Some 15%Q;
                      shell := false |} ;;
     if (returncode result =? 0)%Z && truthy (strip (stdout result)) then
       ret (strip (stdout result))
     else
       let search_command :=
         lit "Get-Command *" +++ query
         +++ lit "* -ErrorAction SilentlyContinue | Select-Object -First 5 Name, Synopsis" in
       result <- run {| args := [lit "powershell"; lit "-Command";
                                 search_command];
                        capture_output := true;
                        text := true;
                        timeout := Some 15%Q;
                        shell := false |} ;;
       if (returncode result =? 0)%Z && truthy (strip (stdout result)) then
         ret (lit "Related commands found:" +++ NL
              +++ strip (stdout result) +++ NL +++ NL
              +++ lit "Use Get-Help <command-name> for more details.")
       else
         ret (lit "No help found for '" +++ query
              +++ lit "'. Try using more specific command names like Get-Process, Get-Service, etc."))
  EXCEPT
    [ (TimeoutExpired, fun _ => ret (lit "Error: Search timed out."));
      (Exception, fun e =>
         ret (lit "Error searching for command: " +++ exc_str e)) ].

(** The registry: [tools = [execute_powershell_command,
    search_powershell_command]]. *)
Inductive tool := ExecuteTool | SearchTool.

Definition tools : list tool := [ExecuteTool; SearchTool].

Definition invoke (t : tool) (argument : str) : M str :=
  match t with
  | ExecuteTool => execute_powershell_command argument
  | SearchTool => search_powershell_command argument
  end.

(** ** Vocabulary of the statements *)

(** The request [execute_powershell_command] sends to [subprocess.run],
    and the two requests of [search_powershell_command]. *)
Definition powershell (script : str) (seconds : Q) : run_args :=
  {| args := [lit "powershell"; lit "-Command"; script];
     capture_output := true;
     text := true;
     timeout := Some seconds;
     shell := false |}.

Definition execute_request (command : str) : run_args :=
  powershell command 30.

Definition help_request (query : str) : run_args :=
  powershell
    (lit "Get-Help " +++ query +++ lit " -ErrorAction SilentlyContinue") 15.

Definition fuzzy_request (query : str) : run_args :=
  powershell
    (lit "Get-Command *" +++ query
     +++ lit "* -ErrorAction SilentlyContinue | Select-Object -First 5 Name, Synopsis")
    15.

(** What a tool call hands back, and the launches it added to the log. *)
Definition result_of {A} (m : M A) (w : World) : outcome A := fst (m w).

Definition launches {A} (m : M A) (w : World) : list run_args :=
  skipn (List.length (calls w)) (calls (snd (m w))).

(** The behaviour the world has in store for the next launch, and for
    the one after it. *)
Definition next (w : World) (a : run_args) : behaviour :=
  oracle w (List.length (calls w)) a.

Definition second (w : World) (a : run_args) : behaviour :=
  oracle w (S (List.length (calls w))) a.

(** A completed step of the search is of no use when the exit code is
    not zero or nothing is left of its output after trimming. *)
Definition fruitless (p : CompletedProcess) : Prop :=
  returncode p <> 0%Z \/ strip (stdout p) = [].

Definition fruitlessb (p : CompletedProcess) : bool :=
  negb ((returncode p =? 0)%Z && truthy (strip (stdout p))).

(** The classes of fault the two functions turn into text. *)
Definition recoverable (w : World) : Prop :=
  forall n a e, oracle w n a = Fault e -> isinstance e Exception = true.

(** A world given by the list of the behaviours of its successive
    launches, whatever the request. *)
Definition scripted (bs : list behaviour) : World :=
  {| oracle := fun n _ =>
       nth n bs (Fault {| exc_class := FileNotFoundError;
                          exc_str := lit "[WinError 2] The system cannot find the file specified" |});
     timeout_text := fun _ => lit "Command timed out";
     calls := [] |}.

(** The text the function makes of a completed run. *)
Definition completed_text (result : CompletedProcess) : str :=
  if (returncode result =? 0)%Z then
    if truthy (strip (stdout result)) then strip (stdout result)
    else lit "Command executed successfully with no output."
  else lit "Error executing command: " +++ strip (stderr result).

(** What the two [except] clauses of the search make of an exception. *)
Definition search_recovery (e : exc) : outcome str :=
  if isinstance e TimeoutExpired then Return (lit "Error: Search timed out.")
  else if isinstance e Exception then
    Return (lit "Error searching for command: " +++ exc_str e)
  else Raise e.

Definition related_text (result : CompletedProcess) : str :=
  lit "Related commands found:" +++ NL +++ strip (stdout result)
  +++ NL +++ NL +++ lit "Use Get-Help <command-name> for more details.".

Definition not_found_text (query : str) : str :=
  lit "No help found for '" +++ query
  +++ lit "'. Try using more specific command names like Get-Process, Get-Service, etc.".

(** What [subprocess.run] gives at the first launch of a search, and what
    it gives at the launch that follows the first. *)
Definition first_step (query : str) (w : World) : outcome CompletedProcess :=
  fst (run (help_request query) w).

Definition second_step (query : str) (w : World) : outcome CompletedProcess :=
  fst (run (fuzzy_request query) (record_call (help_request query) w)).

(** ** Sample sessions *)

Definition echo_hello : str := lit "echo hello".

(** [echo hello] prints its line and exits with code zero after a tenth
    of a second, twice in a row. *)
Definition hello_world : World :=
  scripted [Runs (1 # 10) 0 (lit "hello" +++ NL) [];
            Runs (1 # 10) 0 (lit "hello" +++ NL) []].

(** A command that exits with code zero and prints a blank line only. *)
Definition silent_world : World :=
  scripted [Runs (1 # 2) 0 (lit "  " +++ NL) []].

(** A command that is refused with exit code 1. *)
Definition failing_world : World :=
  scripted [Runs (1 # 4) 1 []
              (lit "Get-Foo : The term 'Get-Foo' is not recognized" +++ NL)].

(** A command that would need a minute. *)
Definition sleeping_world : World :=
  scripted [Runs 60 0 (lit "done" +++ NL) []].

(** No [powershell] on the path: every launch fails. *)
Definition missing_world : World := scripted [].

(** The user presses Ctrl-C while the child runs. *)
Definition interrupt : exc :=
  {| exc_class := KeyboardInterrupt; exc_str := [] |}.

Definition interrupted_world : World := scripted [Fault interrupt].

(** [Get-Help Get-Process] answers at once. *)
Definition known_world : World :=
  scripted [Runs 1 0 (NL +++ lit "NAME" +++ NL +++ lit "    Get-Process" +++ NL) []].

(** Neither step finds anything for the term. *)
Definition unknown_world : World :=
  scripted [Runs 1 0 [] []; Runs 2 0 NL []].

(** The help lookup hangs. *)
Definition slow_help_world : World :=
  scripted [Runs 20 0 (lit "NAME" +++ NL) []].

(** The help lookup fails at once and the name search hangs. *)
Definition slow_fuzzy_world : World :=
  scripted [Runs 1 1 [] (lit "Get-Help : not found" +++ NL);
            Runs (31 # 2) 0 (lit "Get-Process" +++ NL) []].

(** The first request a tool sends, whichever tool it is. *)
Definition first_request (t : tool) (argument : str) : run_args :=
  match t with
  | ExecuteTool => execute_request argument
  | SearchTool => help_request argument
  end.

(** A text with no white space at either end. *)
Definition trimmed (s : str) : Prop :=
  (forall c s', s = c :: s' -> isspace c = false)
  /\ (forall c s', s = s' ++ [c] -> isspace c = false).

(** [s] is [whole] with white space taken off its two ends, and nothing
    else. *)
Definition core_of (whole s : str) : Prop :=
  exists l r,
    whole = l ++ s ++ r
    /\ forallb isspace l = true /\ forallb isspace r = true.

(** The help lookup finds nothing and the name search lists one command. *)
Definition related_world : World :=
  scripted [Runs 1 0 [] [];
            Runs 2 0 (NL +++ lit "Name        Synopsis" +++ NL
                      +++ lit "Get-Process" +++ NL +++ NL) []].

(** Access to the interpreter is denied, at the first launch or at the
    second. *)
Definition denied : exc :=
  {| exc_class := PermissionError;
     exc_str := lit "[WinError 5] Access is denied" |}.

Definition denied_world : World := scripted [Fault denied].

Definition denied_later_world : World :=
  scripted [Runs 1 1 [] []; Fault denied].

(** The user presses Ctrl-C during the name search. *)
Definition interrupted_later_world : World :=
  scripted [Runs 1 0 [] []; Fault interrupt].

(** ** The interactive shell around the agent

    [run_agent], [show_config], [show_examples] and the prompt loop of
    the script.  The console, the prompt, the agent and the process
    environment are outside the code: each is an oracle of the session,
    and every call made to one of them is logged. *)

Module Text.

Fixpoint str_eqb (a b : str) : bool :=
  match a, b with
  | [], [] => true
  | x :: a', y :: b' => (x =? y)%N && str_eqb a' b'
  | _, _ => false
  end.

(** [str(i)] for a non-negative [int]. *)
Definition str_of_nat (i : nat) : str :=
  lit (NilZero.string_of_uint (Nat.to_uint i)).

(** [str.lower]: an ASCII capital becomes its small letter and any other
    ASCII character stays; what becomes of a character outside ASCII is
    read in the Unicode database, here a function of the string and the
    position (the capital sigma depends on what surrounds it). *)
Definition ascii_lower (c : codepoint) : codepoint :=
  if ((65 <=? c) && (c <=? 90))%N then (c + 32)%N else c.

Definition casing : Type := str -> nat -> str.

Fixpoint lower_from (db : casing) (whole : str) (i : nat) (rest : str)
  : str :=
  match rest with
  | [] => []
  | c :: rest' =>
      (if (c <? 128)%N then [ascii_lower c] else db whole i)
      ++ lower_from db whole (S i) rest'
  end.

Definition lower (db : casing) (s : str) : str := lower_from db s 0 s.

(** [enumerate(l, start)]. *)
Fixpoint enumerate {A} (l : list A) (start : nat) : list (nat * A) :=
  match l with
  | [] => []
  | x :: l' => (start, x) :: enumerate l' (S start)
  end.

End Text.

Import Text.

Module Rich.

Inductive box := ROUNDED | SIMPLE.

(** What the script hands to [console.print]: a string with console
    markup, a [Markdown], a [Table] without header, a [Panel]. *)
Inductive renderable :=
| Str (markup : str)
| Markdown (markup : str)
| Table (show_header : bool) (b : box) (padding : nat * nat)
        (column_styles : list str) (rows : list (list str))
| Panel (content : renderable) (title : str) (b : box)
        (border_style : str) (padding : option (nat * nat)).

End Rich.

Import Rich.

Module Shell.

(** A message of the agent's answer: its [content] attribute when it
    has one, and [str()] of the message. *)
Record message := { content : option str; message_str : str }.

(** The mapping [agent.invoke] returns: the list under the key
    "messages", if the key is there. *)
Record agent_state := { messages : option (list message) }.

Inductive event :=
| Printed (objects : list renderable)
| Prompted (prompt : str)
| SpinnerStarted (spinner description : str)
| SpinnerStopped
| Invoked (payload : list (str * str)).

(** The oracles: whether the [n]-th [console.print] fails, what the
    [n]-th [Prompt.ask] gives, what the [n]-th [agent.invoke] gives, and
    the environment variables of the process. *)
Record Env := {
  console_fault : nat -> list renderable -> option exc;
  prompt_answer : nat -> str -> outcome str;
  agent_answer : nat -> list (str * str) -> outcome agent_state;
  environ : str -> option str
}.

(** The log has the latest event first. *)
Record Session := { env : Env; trace : list event }.

Fixpoint printed (t : list event) : nat :=
  match t with
  | [] => 0
  | Printed _ :: t' => S (printed t')
  | _ :: t' => printed t'
  end.

Fixpoint prompted (t : list event) : nat :=
  match t with
  | [] => 0
  | Prompted _ :: t' => S (prompted t')
  | _ :: t' => prompted t'
  end.

Fixpoint invoked (t : list event) : nat :=
  match t with
  | [] => 0
  | Invoked _ :: t' => S (invoked t')
  | _ :: t' => invoked t'
  end.

Definition UI (A : Type) : Type := Session -> outcome A * Session.

Definition pure {A} (a : A) : UI A := fun s => (Return a, s).

Definition andthen {A B} (m : UI A) (k : A -> UI B) : UI B :=
  fun s =>
    match m s with
    | (Return a, s') => k a s'
    | (Raise e, s') => (Raise e, s')
    end.

Fixpoint handle {A} (cs : list (pyclass * (exc -> UI A))) (e : exc)
  : UI A :=
  match cs with
  | [] => fun s => (Raise e, s)
  | (c, h) :: cs' => if isinstance e c then h e else handle cs' e
  end.

Definition attempt {A} (body : UI A) (cs : list (pyclass * (exc -> UI A)))
  : UI A :=
  fun s =>
    match body s with
    | (Return a, s') => (Return a, s')
    | (Raise e, s') => handle cs e s'
    end.

Definition log (ev : event) (s : Session) : Session :=
  {| env := env s; trace := ev :: trace s |}.

(** [console.print] of zero or more objects. *)
Definition console_print (objects : list renderable) : UI unit :=
  fun s =>
    match console_fault (env s) (printed (trace s)) objects with
    | Some e => (Raise e, log (Printed objects) s)
    | None => (Return tt, log (Printed objects) s)
    end.

(** [Prompt.ask(prompt)]. *)
Definition Prompt_ask (prompt : str) : UI str :=
  fun s =>
    (prompt_answer (env s) (prompted (trace s)) prompt,
     log (Prompted prompt) s).

(** [agent.invoke({"messages": [{"role": r, "content": c}, ...]})]. *)
Definition agent_invoke (payload : list (str * str)) : UI agent_state :=
  fun s =>
    (agent_answer (env s) (invoked (trace s)) payload,
     log (Invoked payload) s).

(** [with Progress(SpinnerColumn(spinner), TextColumn(description), ...)]:
    the display is stopped when the block is left, also by an
    exception. *)
Definition with_Progress {A} (spinner description : str) (body : UI A)
  : UI A :=
  fun s =>
    match body (log (SpinnerStarted spinner description) s) with
    | (r, s') => (r, log SpinnerStopped s')
    end.

(** [os.getenv(name)]. *)
Definition os_getenv (name : str) : UI (option str) :=
  fun s => (Return (environ (env s) name), s).

(** [for x in l: body(x)]. *)
Fixpoint for_each {A} (l : list A) (body : A -> UI unit) : UI unit :=
  match l with
  | [] => pure tt
  | x :: l' => andthen (body x) (fun _ => for_each l' body)
  end.

End Shell.

Import Shell.

Declare Scope ui_scope.
Delimit Scope ui_scope with ui.
Notation "x <- m ;; k" := (andthen m (fun x => k))
  (at level 61, m at next level, right associativity) : ui_scope.
Notation "m ;;; k" := (andthen m (fun _ => k))
  (at level 61, right associativity) : ui_scope.
Notation "'TRY' body 'EXCEPT' cs" := (attempt body cs)
  (at level 62, body at level 61) : ui_scope.
Open Scope ui_scope.

Definition show_config : UI unit :=
  langsmith <- os_getenv (lit "LANGSMITH_TRACING") ;;
  let table :=
    Table false SIMPLE (0, 2) [lit "cyan bold"; lit "white"]
      [ [[63743; 252; 167; 241]%N +++ lit " Model:";
         lit "gemini-2.0-flash-exp"];
        [[8218; 246; 176]%N +++ lit " Rate Limit:";
         lit "4 requests/minute"];
        [[63743; 252; 236; 249]%N +++ lit " Max Tokens:"; lit "500"];
        [[63743; 252; 238; 231]%N +++ lit " LangSmith:";
         if match langsmith with
            | Some v => str_eqb v (lit "true")
            | None => false
            end
         then lit "Enabled" else lit "Disabled"] ] in
  console_print
    [Panel table
       (lit "[bold yellow]" +++ [8218; 246; 244; 212; 8719; 232]%N
        +++ lit "  Configuration[/bold yellow]")
       ROUNDED (lit "yellow") (Some (1, 2))] ;;;
  console_print [].

Definition examples : list str :=
  [ lit "List all files in the current directory";
    lit "Show me the top 5 processes by CPU usage";
    lit "What is the Get-Process command used for?";
    lit "Check the Windows version";
    lit "Show all running services" ].

Definition show_examples : UI unit :=
  console_print
    [Str (lit "[bold cyan]" +++ [63743; 252; 237; 176]%N
          +++ lit " Example Queries:[/bold cyan]")] ;;;
  for_each (enumerate examples 1)
    (fun '(i, example) =>
       console_print
         [Str (lit "  [dim]" +++ str_of_nat i +++ lit ".[/dim] [white]"
               +++ example +++ lit "[/white]")]) ;;;
  console_print [].

Definition run_agent (user_input : str) : UI (option str) :=
  console_print
    [Panel (Str (lit "[bold white]" +++ user_input +++ lit "[/bold white]"))
       (lit "[bold green]" +++ [63743; 252; 235; 167]%N
        +++ lit " Your Request[/bold green]")
       ROUNDED (lit "green") None] ;;;
  console_print [] ;;;
  (TRY
    (result <- with_Progress (lit "dots")
                 (lit "[cyan]Processing your request...[/cyan]")
                 (agent_invoke [(lit "user", user_input)]) ;;
     match messages result with
     | Some (first :: rest) =>
         let last_message := last rest first in
         let response :=
           match content last_message with
           | Some c => c
           | None => message_str last_message
           end in
         console_print
           [Panel (Markdown response)
              (lit "[bold magenta]" +++ [63743; 252; 167; 241]%N
               +++ lit " Agent Response[/bold magenta]")
              ROUNDED (lit "magenta") (Some (1, 2))] ;;;
         console_print [] ;;;
         pure (Some response)
     | _ =>
         console_print
           [Str (lit "[yellow]" +++ [8218; 246; 8224; 212; 8719; 232]%N
                 +++ lit "  No response generated.[/yellow]" +++ NL)] ;;;
         pure None
     end)
  EXCEPT
    [ (Exception, fun e =>
         let error_msg := lit "Error running agent: " +++ exc_str e in
         console_print
           [Panel (Str (lit "[bold red]" +++ error_msg
                        +++ lit "[/bold red]"))
              (lit "[bold red]" +++ [8218; 249; 229]%N
               +++ lit " Error[/bold red]")
              ROUNDED (lit "red") None] ;;;
         console_print [] ;;;
         pure None) ]).

(** How one turn of the [while True] loop ends. *)
Inductive flow := Continue | Break.

(** One turn of the prompt loop. *)
Definition turn (db : casing) : UI flow :=
  TRY
    (line <- Prompt_ask (lit "[bold green]You[/bold green]") ;;
     let user_input := strip line in
     if negb (truthy user_input) then pure Continue
     else if existsb (str_eqb (lower db user_input))
                     [lit "exit"; lit "quit"; lit "q"] then
       console_print
         [Str (NL +++ lit "[bold cyan]" +++ [63743; 252; 235; 227]%N
               +++ lit " Goodbye! Have a great day![/bold cyan]" +++ NL)] ;;;
       pure Break
     else if str_eqb (lower db user_input) (lit "help") then
       console_print [] ;;; show_examples ;;; pure Continue
     else if str_eqb (lower db user_input) (lit "config") then
       console_print [] ;;; show_config ;;; pure Continue
     else
       run_agent user_input ;;; pure Continue)
  EXCEPT
    [ (KeyboardInterrupt, fun _ =>
         console_print
           [Str (NL +++ NL +++ lit "[bold cyan]" +++ [63743; 252; 235; 227]%N
                 +++ lit " Session interrupted. Goodbye![/bold cyan]"
                 +++ NL)] ;;;
         pure Break);
      (Exception, fun e =>
         console_print
           [Str (NL +++ lit "[bold red]" +++ [8218; 249; 229]%N
                 +++ lit " Error: " +++ exc_str e +++ lit "[/bold red]"
                 +++ NL)] ;;;
         pure Continue) ].

(** The loop, for at most [turns] turns: [Some tt] when it was left by
    [break], [None] when it is still going. *)
Fixpoint prompt_loop (db : casing) (turns : nat) : UI (option unit) :=
  match turns with
  | 0 => pure None
  | S n =>
      f <- turn db ;;
      match f with
      | Break => pure (Some tt)
      | Continue => prompt_loop db n
      end
  end.

Close Scope ui_scope.

(** ** Vocabulary of the statements about the shell *)

(** A console that never fails. *)
Definition quiet (e : Env) : Prop :=
  forall n objects, console_fault e n objects = None.

Definition you_prompt : str := lit "[bold green]You[/bold green]".

(** What the next [Prompt.ask] of the loop gives, and what the next
    [agent.invoke] gives for a payload. *)
Definition typed (s : Session) : outcome str :=
  prompt_answer (env s) (prompted (trace s)) you_prompt.

Definition reply (s : Session) (payload : list (str * str))
  : outcome agent_state :=
  agent_answer (env s) (invoked (trace s)) payload.

(** The events a computation adds to the log, oldest first. *)
Definition emitted {A} (m : UI A) (s : Session) : list event :=
  rev (firstn (List.length (trace (snd (m s))) - List.length (trace s))
              (trace (snd (m s)))).

(** The text [run_agent] takes from a message. *)
Definition response_of (m : message) : str :=
  match content m with
  | Some c => c
  | None => message_str m
  end.

(** The things the shell prints. *)
Definition request_panel (user_input : str) : renderable :=
  Panel (Str (lit "[bold white]" +++ user_input +++ lit "[/bold white]"))
    (lit "[bold green]" +++ [63743; 252; 235; 167]%N
     +++ lit " Your Request[/bold green]")
    ROUNDED (lit "green") None.

Definition response_panel (response : str) : renderable :=
  Panel (Markdown response)
    (lit "[bold magenta]" +++ [63743; 252; 167; 241]%N
     +++ lit " Agent Response[/bold magenta]")
    ROUNDED (lit "magenta") (Some (1, 2)).

Definition no_response_notice : renderable :=
  Str (lit "[yellow]" +++ [8218; 246; 8224; 212; 8719; 232]%N
       +++ lit "  No response generated.[/yellow]" +++ NL).

Definition agent_error_panel (e : exc) : renderable :=
  Panel (Str (lit "[bold red]" +++ lit "Error running agent: "
              +++ exc_str e +++ lit "[/bold red]"))
    (lit "[bold red]" +++ [8218; 249; 229]%N +++ lit " Error[/bold red]")
    ROUNDED (lit "red") None.

Definition goodbye_notice : renderable :=
  Str (NL +++ lit "[bold cyan]" +++ [63743; 252; 235; 227]%N
       +++ lit " Goodbye! Have a great day![/bold cyan]" +++ NL).

Definition interrupted_notice : renderable :=
  Str (NL +++ NL +++ lit "[bold cyan]" +++ [63743; 252; 235; 227]%N
       +++ lit " Session interrupted. Goodbye![/bold cyan]" +++ NL).

Definition error_notice (e : exc) : renderable :=
  Str (NL +++ lit "[bold red]" +++ [8218; 249; 229]%N
       +++ lit " Error: " +++ exc_str e +++ lit "[/bold red]" +++ NL).

Definition config_panel (langsmith : str) : renderable :=
  Panel
    (Table false SIMPLE (0, 2) [lit "cyan bold"; lit "white"]
       [ [[63743; 252; 167; 241]%N +++ lit " Model:";
          lit "gemini-2.0-flash-exp"];
         [[8218; 246; 176]%N +++ lit " Rate Limit:";
          lit "4 requests/minute"];
         [[63743; 252; 236; 249]%N +++ lit " Max Tokens:"; lit "500"];
         [[63743; 252; 238; 231]%N +++ lit " LangSmith:"; langsmith] ])
    (lit "[bold yellow]" +++ [8218; 246; 244; 212; 8719; 232]%N
     +++ lit "  Configuration[/bold yellow]")
    ROUNDED (lit "yellow") (Some (1, 2)).

(** The last cell of the configuration table. *)
Definition langsmith_cell (e : Env) : str :=
  if match environ e (lit "LANGSMITH_TRACING") with
     | Some v => str_eqb v (lit "true")
     | None => false
     end
  then lit "Enabled" else lit "Disabled".

Definition examples_header : renderable :=
  Str (lit "[bold cyan]" +++ [63743; 252; 237; 176]%N
       +++ lit " Example Queries:[/bold cyan]").

Definition example_line (i : nat) (example : str) : renderable :=
  Str (lit "  [dim]" +++ str_of_nat i +++ lit ".[/dim] [white]"
       +++ example +++ lit "[/white]").

(** What [show_examples] prints, in order: the heading, one line per
    example with its number, an empty line. *)
Definition examples_output : list event :=
  Printed [examples_header]
  :: map (fun p : nat * str => Printed [example_line (fst p) (snd p)])
         (enumerate examples 1)
  ++ [Printed []].

Definition spinner_on : event :=
  SpinnerStarted (lit "dots") (lit "[cyan]Processing your request...[/cyan]").

(** The words that leave the loop, and an input that is none of the
    commands of the loop. *)
Definition exit_words : list str := [lit "exit"; lit "quit"; lit "q"].

Definition ordinary (db : casing) (user_input : str) : Prop :=
  user_input <> []
  /\ ~ In (lower db user_input)
          [lit "exit"; lit "quit"; lit "q"; lit "help"; lit "config"].

(** ** Sample shell sessions *)

Definition closed_input : exc :=
  {| exc_class := ValueError; exc_str := lit "I/O operation on closed file." |}.

Definition network_down : exc :=
  {| exc_class := OSError;
     exc_str := lit "[Errno 101] Network is unreachable" |}.

Definition terminal_gone : exc :=
  {| exc_class := OSError; exc_str := lit "[Errno 5] Input/output error" |}.

(** A session given by the answers of its successive prompts and of its
    successive agent calls; the console never fails, and no environment
    variable is set but those listed. *)
Definition scripted_session (lines : list (outcome str))
    (answers : list (outcome agent_state))
    (variables : list (str * str)) : Session :=
  {| env :=
       {| console_fault := fun _ _ => None;
          prompt_answer := fun n _ => nth n lines (Raise closed_input);
          agent_answer := fun n _ => nth n answers (Raise network_down);
          environ := fun name =>
            match find (fun kv => str_eqb (fst kv) name) variables with
            | Some kv => Some (snd kv)
            | None => None
            end |};
     trace := [] |}.

(** A session whose terminal is gone: every [console.print] fails. *)
Definition deaf_session (lines : list (outcome str)) : Session :=
  {| env :=
       {| console_fault := fun _ _ => Some terminal_gone;
          prompt_answer := fun n _ => nth n lines (Raise closed_input);
          agent_answer := fun _ _ => Raise network_down;
          environ := fun _ => None |};
     trace := [] |}.

(** A data base of letter cases with nothing outside ASCII. *)
Definition ascii_only : casing := fun _ _ => [].

Definition greeting : message :=
  {| content := Some (lit "Hello! How can I help?");
     message_str := lit "content='Hello! How can I help?'" |}.

Definition user_echo : message :=
  {| content := Some (lit "hi"); message_str := lit "content='hi'" |}.

(** ** The text operations *)

Lemma truthy_true_iff (s : str) : truthy s = true <-> s <> [].
Proof.
  destruct s as [|c s]; simpl; split; intro H; try discriminate;
    try reflexivity.
  now elim H.
Qed.

Lemma truthy_false_iff (s : str) : truthy s = false <-> s = [].
Proof.
  destruct s as [|c s]; simpl; split; intro H; try discriminate;
    reflexivity.
Qed.

Lemma lit_cons_nonempty (a : ascii) (s : string) (t : str) :
  lit (String a s) +++ t <> [].
Proof. unfold lit; simpl; discriminate. Qed.

Lemma fruitlessb_spec (p : CompletedProcess) :
  fruitlessb p = true <-> fruitless p.
Proof.
  unfold fruitlessb, fruitless.
  rewrite negb_true_iff, andb_false_iff, Z.eqb_neq, truthy_false_iff.
  reflexivity.
Qed.

(** [strip] leaves neither a leading nor a trailing white space. *)
Lemma lstrip_head (s : str) (c : codepoint) (s' : str) :
  lstrip s = c :: s' -> isspace c = false.
Proof.
  induction s as [|d s IH]; simpl; [discriminate|].
  destruct (isspace d) eqn:E; [exact IH|].
  intros [= <- _]. exact E.
Qed.

Lemma lstrip_snoc (l : str) (c : codepoint) :
  isspace c = false -> lstrip (l ++ [c]) = lstrip l ++ [c].
Proof.
  intro Hc. induction l as [|d l IH]; simpl.
  - now rewrite Hc.
  - destruct (isspace d); [exact IH | reflexivity].
Qed.

Lemma strip_no_leading_space (s : str) (c : codepoint) (s' : str) :
  strip s = c :: s' -> isspace c = false.
Proof.
  unfold strip, rstrip.
  destruct (lstrip s) as [|d t] eqn:E.
  - simpl. discriminate.
  - pose proof (@lstrip_head _ _ _ E) as Hd.
    simpl rev at 2. rewrite (@lstrip_snoc (rev t) d Hd), rev_app_distr. simpl.
    intros [= <- _]. exact Hd.
Qed.

Lemma strip_no_trailing_space (s : str) (c : codepoint) (s' : str) :
  strip s = s' ++ [c] -> isspace c = false.
Proof.
  unfold strip, rstrip. intro H.
  apply (f_equal (@rev codepoint)) in H.
  rewrite rev_involutive, rev_app_distr in H. simpl in H.
  exact (@lstrip_head _ _ _ H).
Qed.

Example strip_hello : strip (lit "  hello world " +++ NL) = lit "hello world".
Proof. reflexivity. Qed.

Example strip_blank : strip (lit "   " +++ NL +++ [160%N; 8195%N]) = [].
Proof. reflexivity. Qed.

(** ** One launch *)

Lemma run_world (a : run_args) (w : World) :
  snd (run a w) = record_call a w.
Proof.
  unfold run.
  destruct (oracle w (List.length (calls w)) a) as [e | t rc out err];
    [reflexivity|].
  destruct (expired t (timeout a)); reflexivity.
Qed.

Lemma run_pair (a : run_args) (w : World) :
  run a w = (fst (run a w), record_call a w).
Proof. rewrite <- run_world. apply surjective_pairing. Qed.

Lemma run_completes (a : run_args) (w : World) t rc out err :
  next w a = Runs t rc out err ->
  expired t (timeout a) = false ->
  fst (run a w) = Return {| returncode := rc; stdout := out; stderr := err |}.
Proof.
  unfold next, run. intros -> ->. reflexivity.
Qed.

Lemma run_expires (a : run_args) (w : World) t rc out err :
  next w a = Runs t rc out err ->
  expired t (timeout a) = true ->
  fst (run a w) =
  Raise {| exc_class := TimeoutExpired; exc_str := timeout_text w a |}.
Proof.
  unfold next, run. intros -> ->. reflexivity.
Qed.

Lemma run_fault (a : run_args) (w : World) e :
  next w a = Fault e -> fst (run a w) = Raise e.
Proof. unfold next, run. intros ->. reflexivity. Qed.

Lemma expired_iff (t limit : Q) :
  expired t (Some limit) = true <-> (limit < t)%Q.
Proof.
  unfold expired. rewrite negb_true_iff.
  split; intro H.
  - apply Qnot_le_lt. intro Hle.
    apply Qle_bool_iff in Hle. congruence.
  - destruct (Qle_bool t limit) eqn:E; [|reflexivity].
    apply Qle_bool_iff in E. now apply Qlt_not_le in H.
Qed.

Lemma launches_record (w : World) (l : list run_args) :
  skipn (List.length (calls w)) (calls w ++ l) = l.
Proof.
  rewrite skipn_app, skipn_all, Nat.sub_diag. reflexivity.
Qed.

(** ** [execute_powershell_command], one launch at a time *)

Lemma execute_unfold (command : str) (w : World) :
  execute_powershell_command command w =
  (match fst (run (execute_request command) w) with
   | Return result => Return (completed_text result)
   | Raise e =>
       if isinstance e TimeoutExpired then
         Return (lit "Error: Command execution timed out (30 seconds limit).")
       else if isinstance e Exception then
         Return (lit "Error: " +++ exc_str e)
       else Raise e
   end,
   record_call (execute_request command) w).
Proof.
  unfold execute_powershell_command, try_except, bind.
  change {| args := [lit "powershell"; lit "-Command"; command];
            capture_output := true; text := true;
            timeout := Some 30%Q; shell := false |}
    with (execute_request command).
  rewrite (run_pair (execute_request command) w).
  cbn [fst snd].
  destruct (fst (run (execute_request command) w)) as [result | e].
  - unfold completed_text, ret.
    destruct (returncode result =? 0)%Z; reflexivity.
  - cbn [dispatch].
    destruct (isinstance e TimeoutExpired); [reflexivity|].
    destruct (isinstance e Exception); reflexivity.
Qed.

Lemma execute_world (command : str) (w : World) :
  snd (execute_powershell_command command w) =
  record_call (execute_request command) w.
Proof. rewrite execute_unfold. reflexivity. Qed.

Lemma execute_completed (command : str) (w : World) result :
  fst (run (execute_request command) w) = Return result ->
  result_of (execute_powershell_command command) w =
  Return (completed_text result).
Proof.
  intro H. unfold result_of. rewrite execute_unfold, H. reflexivity.
Qed.

Lemma execute_raised (command : str) (w : World) e :
  fst (run (execute_request command) w) = Raise e ->
  result_of (execute_powershell_command command) w =
  if isinstance e TimeoutExpired then
    Return (lit "Error: Command execution timed out (30 seconds limit).")
  else if isinstance e Exception then Return (lit "Error: " +++ exc_str e)
  else Raise e.
Proof.
  intro H. unfold result_of. rewrite execute_unfold, H. reflexivity.
Qed.

Lemma execute_launches (command : str) (w : World) :
  launches (execute_powershell_command command) w =
  [execute_request command].
Proof.
  unfold launches. rewrite execute_world. unfold record_call; cbn [calls].
  apply launches_record.
Qed.

(** ** [search_powershell_command], one launch at a time *)

Lemma search_unfold (query : str) (w : World) :
  let w1 := record_call (help_request query) w in
  let w2 := record_call (fuzzy_request query) w1 in
  search_powershell_command query w =
  match fst (run (help_request query) w) with
  | Return r1 =>
      if fruitlessb r1 then
        match fst (run (fuzzy_request query) w1) with
        | Return r2 =>
            (Return (if fruitlessb r2 then not_found_text query
                     else related_text r2), w2)
        | Raise e => (search_recovery e, w2)
        end
      else (Return (strip (stdout r1)), w1)
  | Raise e => (search_recovery e, w1)
  end.
Proof.
  intros w1 w2.
  unfold search_powershell_command, try_except, bind.
  change {| args := [lit "powershell"; lit "-Command";
                     lit "Get-Help " +++ query
                     +++ lit " -ErrorAction SilentlyContinue"];
            capture_output := true; text := true;
            timeout := Some 15%Q; shell := false |}
    with (help_request query).
  change {| args := [lit "powershell"; lit "-Command";
                     lit "Get-Command *" +++ query
                     +++ lit "* -ErrorAction SilentlyContinue | Select-Object -First 5 Name, Synopsis"];
            capture_output := true; text := true;
            timeout := Some 15%Q; shell := false |}
    with (fuzzy_request query).
  rewrite (run_pair (help_request query) w). fold w1.
  cbn [fst snd].
  destruct (fst (run (help_request query) w)) as [r1 | e].
  - unfold fruitlessb at 1.
    destruct ((returncode r1 =? 0)%Z && truthy (strip (stdout r1)));
      cbn [negb]; [reflexivity|].
    rewrite (run_pair (fuzzy_request query) w1). fold w2.
    cbn [fst snd].
    destruct (fst (run (fuzzy_request query) w1)) as [r2 | e].
    + unfold fruitlessb, ret.
      destruct ((returncode r2 =? 0)%Z && truthy (strip (stdout r2)));
        reflexivity.
    + unfold search_recovery. cbn [dispatch].
      destruct (isinstance e TimeoutExpired); [reflexivity|].
      destruct (isinstance e Exception); reflexivity.
  - unfold search_recovery. cbn [dispatch].
    destruct (isinstance e TimeoutExpired); [reflexivity|].
    destruct (isinstance e Exception); reflexivity.
Qed.

(** The second launch of a search meets the behaviour the world holds
    for the launch after the next one. *)
Lemma next_after_call (a b : run_args) (w : World) :
  next (record_call a w) b = second w b.
Proof.
  unfold next, second, record_call; cbn [oracle calls].
  rewrite length_app, Nat.add_1_r. reflexivity.
Qed.

Lemma launches_one (a : run_args) (w : World) :
  skipn (List.length (calls w)) (calls (record_call a w)) = [a].
Proof. unfold record_call; cbn [calls]. apply launches_record. Qed.

Lemma launches_two (a b : run_args) (w : World) :
  skipn (List.length (calls w))
        (calls (record_call b (record_call a w))) = [a; b].
Proof.
  unfold record_call; cbn [calls]. rewrite <- app_assoc.
  apply launches_record.
Qed.

(** ** The command executor *)

(** C1: when the child of [execute_powershell_command] exits with code
    zero, the function returns the trimmed standard output if that is not
    empty, and the sentinel "Command executed successfully with no
    output." if it is empty. *)
Theorem execute_exit_zero (command : str) (w : World)
    (result : CompletedProcess) :
  fst (run (execute_request command) w) = Return result ->
  returncode result = 0%Z ->
  (strip (stdout result) <> [] ->
   result_of (execute_powershell_command command) w =
   Return (strip (stdout result))) /\
  (strip (stdout result) = [] ->
   result_of (execute_powershell_command command) w =
   Return (lit "Command executed successfully with no output.")).
Proof.
  intros Hrun Hrc.
  rewrite (execute_completed _ _ Hrun).
  unfold completed_text. rewrite Hrc, Z.eqb_refl.
  split; intro Hout.
  - apply truthy_true_iff in Hout. now rewrite Hout.
  - apply truthy_false_iff in Hout. now rewrite Hout.
Qed.

Lemma execute_exit_zero_witness :
  result_of (execute_powershell_command echo_hello) hello_world =
  Return (lit "hello")
  /\ result_of (execute_powershell_command (lit "Clear-Host")) silent_world =
     Return (lit "Command executed successfully with no output.").
Proof.
  split.
  - apply (proj1 (execute_exit_zero echo_hello hello_world
                    (result := {| returncode := 0;
                                  stdout := lit "hello" +++ NL;
                                  stderr := [] |})
                    eq_refl eq_refl)).
    vm_compute. discriminate.
  - apply (proj2 (execute_exit_zero (lit "Clear-Host") silent_world
                    (result := {| returncode := 0;
                                  stdout := lit "  " +++ NL;
                                  stderr := [] |})
                    eq_refl eq_refl)).
    reflexivity.
Defined.

(** C2: when the child exits with a code other than zero, the function
    returns "Error executing command: " followed by the trimmed standard
    error. *)
Theorem execute_exit_nonzero (command : str) (w : World)
    (result : CompletedProcess) :
  fst (run (execute_request command) w) = Return result ->
  returncode result <> 0%Z ->
  result_of (execute_powershell_command command) w =
  Return (lit "Error executing command: " +++ strip (stderr result)).
Proof.
  intros Hrun Hrc.
  rewrite (execute_completed _ _ Hrun).
  unfold completed_text.
  apply Z.eqb_neq in Hrc. now rewrite Hrc.
Qed.

Lemma execute_exit_nonzero_witness :
  result_of (execute_powershell_command (lit "Get-Foo")) failing_world =
  Return (lit "Error executing command: Get-Foo : The term 'Get-Foo' is not recognized").
Proof.
  apply (execute_exit_nonzero (lit "Get-Foo") failing_world
           (result := {| returncode := 1;
                         stdout := [];
                         stderr := lit "Get-Foo : The term 'Get-Foo' is not recognized" +++ NL |})
           eq_refl).
  discriminate.
Defined.

(** C3: every launch of [execute_powershell_command] carries a deadline
    of 30 seconds, and when the child needs longer than that the function
    returns "Error: Command execution timed out (30 seconds limit)." *)
Theorem execute_timeout (command : str) (w : World) :
  launches (execute_powershell_command command) w =
    [execute_request command]
  /\ timeout (execute_request command) = Some 30%Q
  /\ forall t rc out err,
       next w (execute_request command) = Runs t rc out err ->
       (30 < t)%Q ->
       result_of (execute_powershell_command command) w =
       Return (lit "Error: Command execution timed out (30 seconds limit).").
Proof.
  split; [apply execute_launches|]. split; [reflexivity|].
  intros t rc out err Hnext Hlate.
  rewrite (execute_raised command w
             (run_expires _ _ Hnext (proj2 (expired_iff t 30) Hlate))).
  reflexivity.
Qed.

Lemma execute_timeout_witness :
  result_of (execute_powershell_command (lit "Start-Sleep 60; 'done'"))
            sleeping_world =
  Return (lit "Error: Command execution timed out (30 seconds limit).").
Proof.
  apply (proj2 (proj2 (execute_timeout (lit "Start-Sleep 60; 'done'")
                         sleeping_world))
           60%Q 0%Z (lit "done" +++ NL) [] eq_refl).
  reflexivity.
Defined.

Lemma lit_nonempty (a : ascii) (s : string) : lit (String a s) <> [].
Proof. unfold lit; simpl; discriminate. Qed.

Lemma completed_text_nonempty (result : CompletedProcess) :
  completed_text result <> [].
Proof.
  unfold completed_text.
  destruct (returncode result =? 0)%Z.
  - destruct (truthy (strip (stdout result))) eqn:E.
    + now apply truthy_true_iff.
    + apply lit_nonempty.
  - apply lit_cons_nonempty.
Qed.

(** Whatever [search_powershell_command] does with an exception that
    derives from [Exception], it is a returned text. *)
Lemma search_recovery_returns (e : exc) :
  isinstance e Exception = true ->
  exists s, search_recovery e = Return s.
Proof.
  intro He. unfold search_recovery. rewrite He.
  destruct (isinstance e TimeoutExpired); eexists; reflexivity.
Qed.

Lemma run_raise_recoverable (a : run_args) (w : World) (e : exc) :
  recoverable w -> fst (run a w) = Raise e -> isinstance e Exception = true.
Proof.
  intros Hw. unfold run.
  destruct (oracle w (List.length (calls w)) a) as [e' | t rc out err] eqn:E.
  - cbn [fst]. intros [= <-]. exact (Hw _ _ _ E).
  - destruct (expired t (timeout a)); cbn [fst]; [|discriminate].
    intros [= <-]. reflexivity.
Qed.

Lemma recoverable_record_call (a : run_args) (w : World) :
  recoverable w -> recoverable (record_call a w).
Proof. intros Hw n b e. apply Hw. Qed.

Lemma run_raise_origin (a : run_args) (w : World) (e : exc) :
  fst (run a w) = Raise e ->
  next w a = Fault e \/ exc_class e = TimeoutExpired.
Proof.
  unfold run, next.
  destruct (oracle w (List.length (calls w)) a) as [e' | t rc out err].
  - cbn [fst]. intros [= <-]. left; reflexivity.
  - destruct (expired t (timeout a)); cbn [fst]; [|discriminate].
    intros [= <-]. right; reflexivity.
Qed.

(** When the only exceptions [subprocess.run] can raise derive from
    [Exception], the executor returns a text that is not empty. *)
Lemma execute_recovers (command : str) (w : World) :
  (forall e, fst (run (execute_request command) w) = Raise e ->
             isinstance e Exception = true) ->
  exists s,
    result_of (execute_powershell_command command) w = Return s /\ s <> [].
Proof.
  intro Hraise.
  destruct (fst (run (execute_request command) w)) as [result | e] eqn:Hrun.
  - exists (completed_text result). split.
    + now apply execute_completed.
    + apply completed_text_nonempty.
  - rewrite (execute_raised _ _ Hrun).
    destruct (isinstance e TimeoutExpired).
    + eexists; split; [reflexivity | apply lit_nonempty].
    + rewrite (Hraise e eq_refl).
      eexists; split; [reflexivity | apply lit_cons_nonempty].
Qed.

(** C10: whether the child succeeds, exits with a non-zero code, runs
    into the deadline or cannot be launched (a fault deriving from
    [Exception]), [execute_powershell_command] returns a text and the text
    is not empty. *)
Theorem execute_nonempty (command : str) (w : World) :
  (forall e, next w (execute_request command) = Fault e ->
             isinstance e Exception = true) ->
  exists s,
    result_of (execute_powershell_command command) w = Return s /\ s <> [].
Proof.
  intro Hfault. apply execute_recovers.
  intros e Hrun.
  destruct (run_raise_origin _ _ Hrun) as [He | He].
  - now apply Hfault.
  - unfold isinstance. now rewrite He.
Qed.

Lemma execute_nonempty_witness :
  (exists s,
      result_of (execute_powershell_command echo_hello) hello_world =
      Return s /\ s <> [])
  /\ (exists s,
        result_of (execute_powershell_command (lit "Get-Foo")) failing_world =
        Return s /\ s <> [])
  /\ (exists s,
        result_of (execute_powershell_command (lit "Start-Sleep 60"))
                  sleeping_world = Return s /\ s <> [])
  /\ (exists s,
        result_of (execute_powershell_command echo_hello) missing_world =
        Return s /\ s <> []).
Proof.
  repeat split.
  - apply (execute_nonempty echo_hello hello_world). intros e [=].
  - apply (execute_nonempty (lit "Get-Foo") failing_world). intros e [=].
  - apply (execute_nonempty (lit "Start-Sleep 60") sleeping_world).
    intros e [=].
  - apply (execute_nonempty echo_hello missing_world).
    intros e [= <-]. reflexivity.
Defined.

(** C9: two calls of [execute_powershell_command] with the same command
    whose children end with the same exit code, standard output and
    standard error return the same text, in whatever state of the world
    each call is made. *)
Theorem execute_deterministic (command : str) (w1 w2 : World)
    (result : CompletedProcess) :
  fst (run (execute_request command) w1) = Return result ->
  fst (run (execute_request command) w2) = Return result ->
  result_of (execute_powershell_command command) w1 =
  result_of (execute_powershell_command command) w2.
Proof.
  intros H1 H2.
  rewrite (execute_completed _ _ H1), (execute_completed _ _ H2).
  reflexivity.
Qed.

(** [execute("echo hello")] called twice in a row. *)
Lemma execute_deterministic_witness :
  result_of (execute_powershell_command echo_hello) hello_world =
  result_of (execute_powershell_command echo_hello)
            (snd (execute_powershell_command echo_hello hello_world)).
Proof.
  apply (execute_deterministic echo_hello hello_world
           (snd (execute_powershell_command echo_hello hello_world))
           (result := {| returncode := 0;
                         stdout := lit "hello" +++ NL;
                         stderr := [] |}));
    reflexivity.
Defined.

(** ** Faults at the tool boundary *)

(** C4, as the spec has it, fails: a [KeyboardInterrupt] raised inside
    [subprocess.run] matches neither [except] clause of
    [execute_powershell_command] and leaves the function as a raised
    exception; no text is returned. *)
Lemma interrupt_propagates :
  result_of (execute_powershell_command (lit "Start-Sleep 20"))
            interrupted_world = Raise interrupt
  /\ ~ (forall (t : tool) (argument : str) (w : World),
          exists s, result_of (invoke t argument) w = Return s).
Proof.
  split; [reflexivity|].
  intro H.
  destruct (H ExecuteTool (lit "Start-Sleep 20") interrupted_world)
    as [s Hs].
  discriminate Hs.
Qed.

(** C4, amended: in a world whose faults all derive from [Exception],
    neither tool lets an exception through: each call returns a text.  In
    [execute_powershell_command] a fault of [subprocess.run] that derives
    from [Exception] and is not a [TimeoutExpired] (a launch failure such
    as [FileNotFoundError] or [PermissionError]) is returned as "Error: "
    followed by [str(e)]. *)
Theorem tools_recover (t : tool) (argument : str) (w : World) :
  recoverable w ->
  (exists s, result_of (invoke t argument) w = Return s)
  /\ forall e,
       next w (execute_request argument) = Fault e ->
       isinstance e TimeoutExpired = false ->
       result_of (execute_powershell_command argument) w =
       Return (lit "Error: " +++ exc_str e).
Proof.
  intro Hw. split.
  - destruct t; cbn [invoke].
    + destruct (execute_recovers argument w) as [s [Hs _]].
      * intros e He. eapply run_raise_recoverable; [exact Hw | exact He].
      * now exists s.
    + unfold result_of.
      pose proof (search_unfold argument w) as Hs. cbv zeta in Hs.
      rewrite Hs. clear Hs.
      destruct (fst (run (help_request argument) w)) as [r1 | e] eqn:H1.
      * destruct (fruitlessb r1); [|eexists; reflexivity].
        destruct (fst (run (fuzzy_request argument)
                           (record_call (help_request argument) w)))
          as [r2 | e] eqn:H2.
        -- eexists; reflexivity.
        -- cbn [fst]. apply search_recovery_returns.
           eapply run_raise_recoverable;
             [apply recoverable_record_call; exact Hw | exact H2].
      * cbn [fst]. apply search_recovery_returns.
        eapply run_raise_recoverable; [exact Hw | exact H1].
  - intros e He Ht.
    rewrite (execute_raised argument w (run_fault _ _ He)), Ht.
    now rewrite (Hw _ _ _ He).
Qed.

Lemma recoverable_missing_world : recoverable missing_world.
Proof.
  intros n a e. unfold missing_world, scripted; cbn [oracle].
  destruct n; cbn [nth]; intros [= <-]; reflexivity.
Defined.

Lemma tools_recover_witness :
  result_of (execute_powershell_command echo_hello) missing_world =
  Return (lit "Error: [WinError 2] The system cannot find the file specified")
  /\ exists s,
       result_of (invoke SearchTool (lit "Get-Process")) missing_world =
       Return s.
Proof.
  split.
  - apply (proj2 (tools_recover ExecuteTool echo_hello
                    recoverable_missing_world)
             {| exc_class := FileNotFoundError;
                exc_str := lit "[WinError 2] The system cannot find the file specified" |});
      reflexivity.
  - apply (proj1 (tools_recover SearchTool (lit "Get-Process")
                    recoverable_missing_world)).
Defined.

(** ** The help resolver *)

Lemma requests_differ (query : str) :
  fuzzy_request query <> help_request query.
Proof.
  unfold fuzzy_request, help_request, powershell, lit.
  cbn [list_ascii_of_string map app]. intro H. discriminate H.
Qed.

Lemma search_fruitful (query : str) (w : World) (r1 : CompletedProcess) :
  first_step query w = Return r1 ->
  fruitlessb r1 = false ->
  search_powershell_command query w =
  (Return (strip (stdout r1)), record_call (help_request query) w).
Proof.
  unfold first_step. intros H1 Hf.
  pose proof (search_unfold query w) as Hs. cbv zeta in Hs.
  rewrite Hs, H1, Hf. reflexivity.
Qed.

Lemma search_falls_back (query : str) (w : World) (r1 : CompletedProcess) :
  first_step query w = Return r1 ->
  fruitlessb r1 = true ->
  search_powershell_command query w =
  (match second_step query w with
   | Return r2 =>
       Return (if fruitlessb r2 then not_found_text query
               else related_text r2)
   | Raise e => search_recovery e
   end,
   record_call (fuzzy_request query) (record_call (help_request query) w)).
Proof.
  unfold first_step, second_step. intros H1 Hf.
  pose proof (search_unfold query w) as Hs. cbv zeta in Hs.
  rewrite Hs, H1, Hf.
  destruct (fst (run (fuzzy_request query)
                     (record_call (help_request query) w))); reflexivity.
Qed.

Lemma search_first_raises (query : str) (w : World) (e : exc) :
  first_step query w = Raise e ->
  search_powershell_command query w =
  (search_recovery e, record_call (help_request query) w).
Proof.
  unfold first_step. intros H1.
  pose proof (search_unfold query w) as Hs. cbv zeta in Hs.
  rewrite Hs, H1. reflexivity.
Qed.

(** The launches of a search, by the fate of its first step. *)
Lemma search_launches (query : str) (w : World) :
  launches (search_powershell_command query) w =
  match first_step query w with
  | Return r1 =>
      if fruitlessb r1 then [help_request query; fuzzy_request query]
      else [help_request query]
  | Raise _ => [help_request query]
  end.
Proof.
  unfold launches.
  destruct (first_step query w) as [r1 | e] eqn:H1.
  - destruct (fruitlessb r1) eqn:Hf.
    + rewrite (search_falls_back _ _ H1 Hf). cbn [snd].
      apply launches_two.
    + rewrite (search_fruitful _ _ H1 Hf). cbn [snd].
      apply launches_one.
  - rewrite (search_first_raises _ _ H1). cbn [snd].
    apply launches_one.
Qed.

(** C5: a search first launches the help lookup of the very term it was
    given ([Get-Help <query> -ErrorAction SilentlyContinue]) with a
    deadline of 15 seconds.  The name search
    ([Get-Command *<query>* ... | Select-Object -First 5 Name, Synopsis],
    deadline 15 seconds) is launched if and only if the first step
    completes with a non-zero exit code or with nothing left of its
    output after trimming; when the first step completes with exit code
    zero and output, the trimmed output is returned and the help lookup is
    the only launch. *)
Theorem search_two_steps (query : str) (w : World) :
  (exists rest,
      launches (search_powershell_command query) w =
        help_request query :: rest
      /\ (rest = [] \/ rest = [fuzzy_request query]))
  /\ help_request query =
       {| args := [lit "powershell"; lit "-Command";
                   lit "Get-Help " +++ query
                   +++ lit " -ErrorAction SilentlyContinue"];
          capture_output := true; text := true;
          timeout := Some 15%Q; shell := false |}
  /\ fuzzy_request query =
       {| args := [lit "powershell"; lit "-Command";
                   lit "Get-Command *" +++ query
                   +++ lit "* -ErrorAction SilentlyContinue | Select-Object -First 5 Name, Synopsis"];
          capture_output := true; text := true;
          timeout := Some 15%Q; shell := false |}
  /\ (In (fuzzy_request query)
         (launches (search_powershell_command query) w) <->
      exists r1, first_step query w = Return r1 /\ fruitless r1)
  /\ forall r1,
       first_step query w = Return r1 ->
       returncode r1 = 0%Z ->
       strip (stdout r1) <> [] ->
       result_of (search_powershell_command query) w =
         Return (strip (stdout r1))
       /\ launches (search_powershell_command query) w =
            [help_request query].
Proof.
  rewrite search_launches.
  repeat split.
  - destruct (first_step query w) as [r1 | e];
      [destruct (fruitlessb r1)|]; eexists; split; try reflexivity; auto.
  - intro Hin.
    destruct (first_step query w) as [r1 | e].
    + destruct (fruitlessb r1) eqn:Hf.
      * exists r1. split; [reflexivity | now apply fruitlessb_spec].
      * destruct Hin as [Hin | []]. symmetry in Hin. now apply requests_differ in Hin.
    + destruct Hin as [Hin | []]. symmetry in Hin. now apply requests_differ in Hin.
  - intros [r1 [-> Hf]]. apply fruitlessb_spec in Hf. rewrite Hf.
    right; left; reflexivity.
  - unfold result_of. rewrite (@search_fruitful query w r1); auto.
    unfold fruitlessb. apply negb_false_iff, andb_true_iff.
    split; [now apply Z.eqb_eq | now apply truthy_true_iff].
  - rewrite H. replace (fruitlessb r1) with false; [reflexivity|].
    symmetry. unfold fruitlessb. apply negb_false_iff, andb_true_iff.
    split; [now apply Z.eqb_eq | now apply truthy_true_iff].
Qed.

Lemma search_two_steps_witness :
  (result_of (search_powershell_command (lit "Get-Process")) known_world =
     Return (lit "NAME" +++ NL +++ lit "    Get-Process")
   /\ launches (search_powershell_command (lit "Get-Process")) known_world =
        [help_request (lit "Get-Process")])
  /\ In (fuzzy_request (lit "zzz"))
        (launches (search_powershell_command (lit "zzz")) unknown_world).
Proof.
  split.
  - apply (proj2 (proj2 (proj2 (proj2
             (search_two_steps (lit "Get-Process") known_world))))
             {| returncode := 0;
                stdout := NL +++ lit "NAME" +++ NL
                          +++ lit "    Get-Process" +++ NL;
                stderr := [] |});
      [reflexivity | reflexivity | vm_compute; discriminate].
  - apply (proj1 (proj2 (proj2 (proj2
             (search_two_steps (lit "zzz") unknown_world))))).
    exists {| returncode := 0; stdout := []; stderr := [] |}.
    split; [reflexivity | right; reflexivity].
Defined.

(** C6: when the help lookup and the name search both complete with a
    non-zero exit code or with nothing left of their output after
    trimming, the search returns "No help found for '<query>'. Try using
    more specific command names like Get-Process, Get-Service, etc." with
    the term it was given in place of <query>. *)
Theorem search_not_found (query : str) (w : World)
    (r1 r2 : CompletedProcess) :
  first_step query w = Return r1 -> fruitless r1 ->
  second_step query w = Return r2 -> fruitless r2 ->
  result_of (search_powershell_command query) w =
  Return (lit "No help found for '" +++ query
          +++ lit "'. Try using more specific command names like Get-Process, Get-Service, etc.").
Proof.
  intros H1 Hf1 H2 Hf2.
  apply fruitlessb_spec in Hf1, Hf2.
  unfold result_of.
  rewrite (search_falls_back _ _ H1 Hf1), H2, Hf2. reflexivity.
Qed.

Lemma search_not_found_witness :
  result_of (search_powershell_command (lit "zzz-nonexistent-cmd"))
            unknown_world =
  Return (lit "No help found for 'zzz-nonexistent-cmd'. Try using more specific command names like Get-Process, Get-Service, etc.").
Proof.
  apply (search_not_found (lit "zzz-nonexistent-cmd") unknown_world
           (r1 := {| returncode := 0; stdout := []; stderr := [] |})
           (r2 := {| returncode := 0; stdout := NL; stderr := [] |})).
  - reflexivity.
  - right; reflexivity.
  - reflexivity.
  - right; reflexivity.
Defined.

(** C7: when the help lookup needs more than its 15 seconds, or the help
    lookup is of no use and the name search needs more than its 15
    seconds, the search returns "Error: Search timed out." *)
Theorem search_timeout (query : str) (w : World) :
  (forall t rc out err,
      next w (help_request query) = Runs t rc out err ->
      (15 < t)%Q ->
      result_of (search_powershell_command query) w =
      Return (lit "Error: Search timed out."))
  /\ forall r1 t rc out err,
       first_step query w = Return r1 -> fruitless r1 ->
       second w (fuzzy_request query) = Runs t rc out err ->
       (15 < t)%Q ->
       result_of (search_powershell_command query) w =
       Return (lit "Error: Search timed out.").
Proof.
  split.
  - intros t rc out err Hnext Hlate.
    unfold result_of.
    rewrite (@search_first_raises query w
               {| exc_class := TimeoutExpired;
                  exc_str := timeout_text w (help_request query) |}).
    + reflexivity.
    + apply (run_expires _ _ Hnext). now apply expired_iff.
  - intros r1 t rc out err H1 Hf Hsecond Hlate.
    apply fruitlessb_spec in Hf.
    unfold result_of. rewrite (search_falls_back _ _ H1 Hf).
    unfold second_step.
    rewrite <- next_after_call with (a := help_request query) in Hsecond.
    rewrite (run_expires _ _ Hsecond (proj2 (expired_iff t 15) Hlate)).
    reflexivity.
Qed.

Lemma search_timeout_witness :
  result_of (search_powershell_command (lit "Get-Process")) slow_help_world =
    Return (lit "Error: Search timed out.")
  /\ result_of (search_powershell_command (lit "proc")) slow_fuzzy_world =
       Return (lit "Error: Search timed out.").
Proof.
  split.
  - apply (proj1 (search_timeout (lit "Get-Process") slow_help_world)
             20%Q 0%Z (lit "NAME" +++ NL) []);
      reflexivity.
  - apply (proj2 (search_timeout (lit "proc") slow_fuzzy_world)
             {| returncode := 1; stdout := [];
                stderr := lit "Get-Help : not found" +++ NL |}
             (31 # 2)%Q 0%Z (lit "Get-Process" +++ NL) []).
    + reflexivity.
    + left; discriminate.
    + reflexivity.
    + reflexivity.
Defined.

(** ** The process boundary *)

(** C8: each launch hands [subprocess.run] a list of three separate
    arguments, the interpreter [powershell], the flag [-Command] and one
    script string, with [shell=False]: for
    [execute_powershell_command] the script is the command as it was
    given, for [search_powershell_command] it is one of its two scripts;
    no launch goes through a shell of the parent. *)
Theorem explicit_argument_list (command : str) (w : World) :
  launches (execute_powershell_command command) w =
    [ {| args := [lit "powershell"; lit "-Command"; command];
         capture_output := true; text := true;
         timeout := Some 30%Q; shell := false |} ]
  /\ Forall (fun a =>
               shell a = false
               /\ exists script,
                    args a = [lit "powershell"; lit "-Command"; script])
            (launches (search_powershell_command command) w).
Proof.
  split; [apply execute_launches|].
  rewrite search_launches.
  assert (Hh : shell (help_request command) = false
               /\ exists script, args (help_request command) =
                                 [lit "powershell"; lit "-Command"; script])
    by (split; [reflexivity | eexists; reflexivity]).
  assert (Hz : shell (fuzzy_request command) = false
               /\ exists script, args (fuzzy_request command) =
                                 [lit "powershell"; lit "-Command"; script])
    by (split; [reflexivity | eexists; reflexivity]).
  destruct (first_step command w) as [r1 | e];
    [destruct (fruitlessb r1)|];
    repeat (apply Forall_cons; [assumption|]); apply Forall_nil.
Qed.

(** ** Further properties of the two tools *)

Lemma lstrip_core (s : str) :
  exists l, s = l ++ lstrip s /\ forallb isspace l = true.
Proof.
  induction s as [|c s [l [Hs Hl]]]; simpl.
  - exists []. split; reflexivity.
  - destruct (isspace c) eqn:E.
    + exists (c :: l). simpl. rewrite E, Hl. split; [now f_equal | reflexivity].
    + exists []. split; reflexivity.
Qed.

Lemma forallb_rev (f : codepoint -> bool) (l : str) :
  forallb f (rev l) = forallb f l.
Proof.
  induction l as [|c l IH]; simpl; [reflexivity|].
  rewrite forallb_app, IH. simpl. rewrite andb_true_r. apply andb_comm.
Qed.

Lemma strip_core (s : str) : core_of s (strip s).
Proof.
  unfold core_of, strip, rstrip.
  destruct (lstrip_core s) as [l [Hs Hl]].
  destruct (lstrip_core (rev (lstrip s))) as [r [Hr Hr']].
  exists l, (rev r). split; [|split].
  - rewrite Hs at 1. f_equal.
    rewrite <- rev_app_distr, <- Hr, rev_involutive. reflexivity.
  - exact Hl.
  - now rewrite forallb_rev.
Qed.

Lemma strip_trimmed (s : str) : trimmed (strip s).
Proof.
  split; intros c s' H.
  - exact (@strip_no_leading_space _ _ _ H).
  - exact (@strip_no_trailing_space _ _ _ H).
Qed.

Lemma timeout_is_exception (e : exc) :
  isinstance e Exception = false -> isinstance e TimeoutExpired = false.
Proof.
  unfold isinstance. destruct (exc_class e); intro H; vm_compute in *;
    congruence.
Qed.

(** X1: when the help lookup is of no use and the name search exits
    with code zero and output, the search returns the trimmed output of
    the name search between the line "Related commands found:" and,
    after an empty line, "Use Get-Help <command-name> for more details.";
    both launches were made. *)
Theorem search_related (query : str) (w : World)
    (r1 r2 : CompletedProcess) :
  first_step query w = Return r1 -> fruitless r1 ->
  second_step query w = Return r2 ->
  returncode r2 = 0%Z -> strip (stdout r2) <> [] ->
  result_of (search_powershell_command query) w =
    Return (lit "Related commands found:" +++ NL
            +++ strip (stdout r2) +++ NL +++ NL
            +++ lit "Use Get-Help <command-name> for more details.")
  /\ launches (search_powershell_command query) w =
       [help_request query; fuzzy_request query].
Proof.
  intros H1 Hf1 H2 Hrc Hout.
  apply fruitlessb_spec in Hf1.
  assert (Hf2 : fruitlessb r2 = false).
  { unfold fruitlessb. apply negb_false_iff, andb_true_iff.
    split; [now apply Z.eqb_eq | now apply truthy_true_iff]. }
  split.
  - unfold result_of.
    rewrite (search_falls_back _ _ H1 Hf1), H2, Hf2. reflexivity.
  - rewrite search_launches, H1, Hf1. reflexivity.
Qed.

Lemma search_related_witness :
  result_of (search_powershell_command (lit "proc")) related_world =
    Return (lit "Related commands found:" +++ NL
            +++ lit "Name        Synopsis" +++ NL +++ lit "Get-Process"
            +++ NL +++ NL
            +++ lit "Use Get-Help <command-name> for more details.")
  /\ launches (search_powershell_command (lit "proc")) related_world =
       [help_request (lit "proc"); fuzzy_request (lit "proc")].
Proof.
  apply (search_related (lit "proc") related_world
           (r1 := {| returncode := 0; stdout := []; stderr := [] |})
           (r2 := {| returncode := 0;
                     stdout := NL +++ lit "Name        Synopsis" +++ NL
                               +++ lit "Get-Process" +++ NL +++ NL;
                     stderr := [] |})).
  - reflexivity.
  - right; reflexivity.
  - reflexivity.
  - reflexivity.
  - vm_compute. discriminate.
Defined.

(** X2: when [subprocess.run] raises an exception that derives from
    [Exception] and is not a [TimeoutExpired], at the help lookup or at
    the name search that follows a useless help lookup, the search
    returns "Error searching for command: " followed by [str(e)]. *)
Theorem search_failure_text (query : str) (w : World) (e : exc) :
  isinstance e Exception = true ->
  isinstance e TimeoutExpired = false ->
  (first_step query w = Raise e ->
   result_of (search_powershell_command query) w =
   Return (lit "Error searching for command: " +++ exc_str e))
  /\ (forall r1,
        first_step query w = Return r1 -> fruitless r1 ->
        second_step query w = Raise e ->
        result_of (search_powershell_command query) w =
        Return (lit "Error searching for command: " +++ exc_str e)).
Proof.
  intros He Ht. split.
  - intro H1. unfold result_of.
    rewrite (search_first_raises _ _ H1). cbn [fst].
    unfold search_recovery. now rewrite Ht, He.
  - intros r1 H1 Hf H2. apply fruitlessb_spec in Hf.
    unfold result_of.
    rewrite (search_falls_back _ _ H1 Hf), H2. cbn [fst].
    unfold search_recovery. now rewrite Ht, He.
Qed.

Lemma search_failure_text_witness :
  result_of (search_powershell_command (lit "Get-Process")) denied_world =
    Return (lit "Error searching for command: [WinError 5] Access is denied")
  /\ result_of (search_powershell_command (lit "Get-Process"))
               denied_later_world =
     Return (lit "Error searching for command: [WinError 5] Access is denied").
Proof.
  split.
  - apply (proj1 (@search_failure_text (lit "Get-Process") denied_world
                    denied eq_refl eq_refl)).
    reflexivity.
  - apply (proj2 (@search_failure_text (lit "Get-Process")
                    denied_later_world denied eq_refl eq_refl)
             {| returncode := 1; stdout := []; stderr := [] |}).
    + reflexivity.
    + left; discriminate.
    + reflexivity.
Defined.

(** X3: an exception of [subprocess.run] that does not derive from
    [Exception] (a [KeyboardInterrupt], a [SystemExit]) is swallowed by
    neither tool: raised at the first launch of either tool, or at the
    name search of [search_powershell_command], it reaches the caller
    unchanged. *)
Theorem interrupts_reach_caller (t : tool) (argument : str) (w : World)
    (e : exc) :
  isinstance e Exception = false ->
  (next w (first_request t argument) = Fault e ->
   result_of (invoke t argument) w = Raise e)
  /\ (forall r1,
        first_step argument w = Return r1 -> fruitless r1 ->
        second w (fuzzy_request argument) = Fault e ->
        result_of (search_powershell_command argument) w = Raise e).
Proof.
  intro He. pose proof (timeout_is_exception e He) as Ht.
  split.
  - destruct t; cbn [first_request invoke]; intro Hn.
    + rewrite (execute_raised argument w (run_fault _ _ Hn)).
      now rewrite Ht, He.
    + unfold result_of.
      rewrite (@search_first_raises argument w e (run_fault _ _ Hn)).
      cbn [fst]. unfold search_recovery. now rewrite Ht, He.
  - intros r1 H1 Hf Hn. apply fruitlessb_spec in Hf.
    rewrite <- next_after_call with (a := help_request argument) in Hn.
    unfold result_of.
    rewrite (search_falls_back _ _ H1 Hf).
    unfold second_step. rewrite (run_fault _ _ Hn). cbn [fst].
    unfold search_recovery. now rewrite Ht, He.
Qed.

Lemma interrupts_reach_caller_witness :
  result_of (invoke SearchTool (lit "Get-Process")) interrupted_world =
    Raise interrupt
  /\ result_of (search_powershell_command (lit "proc"))
               interrupted_later_world = Raise interrupt.
Proof.
  split.
  - apply (proj1 (@interrupts_reach_caller SearchTool (lit "Get-Process")
                    interrupted_world interrupt eq_refl)).
    reflexivity.
  - apply (proj2 (@interrupts_reach_caller SearchTool (lit "proc")
                    interrupted_later_world interrupt eq_refl)
             {| returncode := 0; stdout := []; stderr := [] |}).
    + reflexivity.
    + right; reflexivity.
    + reflexivity.
Defined.

Lemma search_recovery_nonempty (e : exc) :
  isinstance e Exception = true ->
  exists s, search_recovery e = Return s /\ s <> [].
Proof.
  intro He. unfold search_recovery. rewrite He.
  destruct (isinstance e TimeoutExpired); eexists; split;
    try reflexivity; [apply lit_nonempty | apply lit_cons_nonempty].
Qed.

(** X4: in a world whose faults all derive from [Exception],
    [search_powershell_command] returns a text and the text is never
    empty, whichever of its branches is taken. *)
Theorem search_nonempty (query : str) (w : World) :
  recoverable w ->
  exists s,
    result_of (search_powershell_command query) w = Return s /\ s <> [].
Proof.
  intro Hw. unfold result_of.
  destruct (first_step query w) as [r1 | e] eqn:H1.
  - destruct (fruitlessb r1) eqn:Hf.
    + rewrite (search_falls_back _ _ H1 Hf). cbn [fst].
      destruct (second_step query w) as [r2 | e] eqn:H2.
      * eexists; split; [reflexivity|].
        destruct (fruitlessb r2); apply lit_cons_nonempty.
      * apply search_recovery_nonempty.
        eapply run_raise_recoverable;
          [apply recoverable_record_call; exact Hw | exact H2].
    + rewrite (search_fruitful _ _ H1 Hf). cbn [fst].
      eexists; split; [reflexivity|].
      unfold fruitlessb in Hf.
      apply negb_false_iff, andb_true_iff in Hf.
      now apply truthy_true_iff.
  - rewrite (search_first_raises _ _ H1). cbn [fst].
    apply search_recovery_nonempty.
    eapply run_raise_recoverable; [exact Hw | exact H1].
Qed.

Lemma search_nonempty_witness :
  exists s,
    result_of (search_powershell_command (lit "Get-Process")) missing_world =
    Return s /\ s <> [].
Proof.
  apply (search_nonempty (lit "Get-Process") recoverable_missing_world).
Defined.

(** X5: when the first launch of a tool exits with code zero and its
    output is not blank, the text the tool returns is that output with
    white space taken off its two ends and nothing else: it is a
    contiguous part of the output, what is cut off before and after it is
    white space only, and it neither begins nor ends with white space. *)
Theorem success_returns_core (t : tool) (argument : str) (w : World)
    (result : CompletedProcess) :
  fst (run (first_request t argument) w) = Return result ->
  returncode result = 0%Z ->
  strip (stdout result) <> [] ->
  exists s,
    result_of (invoke t argument) w = Return s
    /\ core_of (stdout result) s /\ trimmed s /\ s <> [].
Proof.
  intros Hrun Hrc Hout.
  exists (strip (stdout result)).
  split; [|split; [apply strip_core | split; [apply strip_trimmed | exact Hout]]].
  destruct t; cbn [first_request invoke] in *.
  - rewrite (execute_completed _ _ Hrun).
    unfold completed_text. rewrite Hrc, Z.eqb_refl.
    apply truthy_true_iff in Hout. now rewrite Hout.
  - unfold result_of. rewrite (@search_fruitful argument w result Hrun).
    + reflexivity.
    + unfold fruitlessb. apply negb_false_iff, andb_true_iff.
      split; [now apply Z.eqb_eq | now apply truthy_true_iff].
Qed.

Lemma success_returns_core_witness :
  exists s,
    result_of (invoke SearchTool (lit "Get-Process")) known_world = Return s
    /\ core_of (NL +++ lit "NAME" +++ NL +++ lit "    Get-Process" +++ NL) s
    /\ trimmed s /\ s <> [].
Proof.
  apply (@success_returns_core SearchTool (lit "Get-Process") known_world
           {| returncode := 0;
              stdout := NL +++ lit "NAME" +++ NL
                        +++ lit "    Get-Process" +++ NL;
              stderr := [] |});
    [reflexivity | reflexivity | vm_compute; discriminate].
Defined.

(** ** The shell: text and log *)

Lemma str_eqb_eq (a b : str) : str_eqb a b = true <-> a = b.
Proof.
  revert b. induction a as [|x a IH]; intros [|y b]; simpl;
    try (split; [discriminate | discriminate]);
    try (split; reflexivity).
  rewrite andb_true_iff, N.eqb_eq, IH.
  split; [intros [-> ->]; reflexivity | intros [= -> ->]; auto].
Qed.

Lemma str_eqb_refl (a : str) : str_eqb a a = true.
Proof. now apply str_eqb_eq. Qed.

Lemma ascii_lower_keeps_ascii (c : codepoint) :
  (ascii_lower c <? 128)%N = true -> (c <? 128)%N = true.
Proof.
  unfold ascii_lower.
  destruct ((65 <=? c)%N && (c <=? 90)%N) eqn:E; [|auto].
  intros _. apply andb_true_iff in E. destruct E as [_ E].
  apply N.leb_le in E. apply N.ltb_lt.
  apply N.le_lt_trans with (m := 90%N); [exact E | reflexivity].
Qed.

(** On a string whose small-letter form is ASCII, [lower] is the
    ASCII rule, whatever the data base holds. *)
Lemma lower_from_ascii (db : casing) (whole : str) (x : str) :
  forall i,
    forallb (fun c => (c <? 128)%N) (map ascii_lower x) = true ->
    lower_from db whole i x = map ascii_lower x.
Proof.
  induction x as [|c x IH]; intros i H; simpl in *; [reflexivity|].
  apply andb_true_iff in H. destruct H as [Hc Hx].
  rewrite (ascii_lower_keeps_ascii c Hc). simpl.
  now rewrite IH.
Qed.

Lemma lower_ascii (db : casing) (x y : str) :
  map ascii_lower x = y ->
  forallb (fun c => (c <? 128)%N) y = true ->
  lower db x = y.
Proof.
  intros <- H. unfold lower. now apply lower_from_ascii.
Qed.

Lemma console_print_quiet (objects : list renderable) (s : Session) :
  quiet (env s) ->
  console_print objects s = (Return tt, log (Printed objects) s).
Proof. intro Hq. unfold console_print. now rewrite Hq. Qed.

Lemma emitted_intro {A} (m : UI A) (s : Session) (new : list event) :
  trace (snd (m s)) = new ++ trace s ->
  emitted m s = rev new.
Proof.
  intro H. unfold emitted. rewrite H, length_app, Nat.add_sub.
  rewrite firstn_app, firstn_all, Nat.sub_diag. simpl.
  now rewrite app_nil_r.
Qed.

(** ** [run_agent] on a console that never fails *)

Lemma run_agent_quiet (user_input : str) (s : Session) :
  quiet (env s) ->
  let s2 := log (Printed []) (log (Printed [request_panel user_input]) s) in
  let s3 := log SpinnerStopped
              (log (Invoked [(lit "user", user_input)])
                   (log spinner_on s2)) in
  run_agent user_input s =
  match reply s [(lit "user", user_input)] with
  | Return result =>
      match messages result with
      | Some (first :: rest) =>
          (Return (Some (response_of (last rest first))),
           log (Printed [])
             (log (Printed [response_panel (response_of (last rest first))])
                  s3))
      | _ => (Return None, log (Printed [no_response_notice]) s3)
      end
  | Raise e =>
      if isinstance e Exception then
        (Return None,
         log (Printed []) (log (Printed [agent_error_panel e]) s3))
      else (Raise e, s3)
  end.
Proof.
  intros Hq s2 s3.
  unfold run_agent, andthen, attempt.
  fold (request_panel user_input).
  rewrite console_print_quiet by exact Hq. cbv beta iota.
  rewrite console_print_quiet by exact Hq. cbv beta iota.
  fold s2.
  unfold with_Progress, agent_invoke. fold spinner_on.
  change (agent_answer (env (log spinner_on s2))
            (invoked (trace (log spinner_on s2)))
            [(lit "user", user_input)])
    with (reply s [(lit "user", user_input)]).
  fold s3.
  destruct (reply s [(lit "user", user_input)]) as [result | e].
  - destruct (messages result) as [[|first rest]|].
    + fold no_response_notice.
      now rewrite console_print_quiet by exact Hq.
    + fold (response_of (last rest first)).
      fold (response_panel (response_of (last rest first))).
      rewrite console_print_quiet by exact Hq. cbv beta iota.
      now rewrite console_print_quiet by exact Hq.
    + fold no_response_notice.
      now rewrite console_print_quiet by exact Hq.
  - cbn [handle].
    destruct (isinstance e Exception); [|reflexivity].
    change (Panel _ _ ROUNDED (lit "red") None) with (agent_error_panel e).
    rewrite console_print_quiet by exact Hq. cbv beta iota.
    now rewrite console_print_quiet by exact Hq.
Qed.




(** X7: on a console that does not fail, when the answer of the agent
    has no "messages" entry or an empty one, [run_agent] returns [None]
    and the last thing it prints is the notice "No response
    generated.". *)
Theorem run_agent_no_answer (user_input : str) (s : Session)
    (result : agent_state) :
  quiet (env s) ->
  reply s [(lit "user", user_input)] = Return result ->
  messages result = None \/ messages result = Some [] ->
  fst (run_agent user_input s) = Return None
  /\ emitted (run_agent user_input) s =
       [ Printed [request_panel user_input]; Printed []; spinner_on;
         Invoked [(lit "user", user_input)]; SpinnerStopped;
         Printed [no_response_notice] ].
Proof.
  intros Hq Hr Hm.
  pose proof (run_agent_quiet user_input s Hq) as H. cbv zeta in H.
  rewrite Hr in H.
  assert (H' : run_agent user_input s =
               (Return None,
                log (Printed [no_response_notice])
                  (log SpinnerStopped
                     (log (Invoked [(lit "user", user_input)])
                        (log spinner_on
                           (log (Printed [])
                              (log (Printed [request_panel user_input])
                                 s))))))).
  { destruct Hm as [Hm | Hm]; rewrite Hm in H; exact H. }
  split.
  - now rewrite H'.
  - apply (@emitted_intro _ (run_agent user_input) s
             [ Printed [no_response_notice]; SpinnerStopped;
               Invoked [(lit "user", user_input)]; spinner_on;
               Printed []; Printed [request_panel user_input] ]).
    now rewrite H'.
Qed.

Lemma run_agent_no_answer_witness :
  fst (run_agent (lit "hi")
         (scripted_session [] [Return {| messages := Some [] |}] [])) =
  Return None.
Proof.
  apply (proj1 (@run_agent_no_answer (lit "hi")
                  (scripted_session [] [Return {| messages := Some [] |}] [])
                  {| messages := Some [] |}
                  (fun _ _ => eq_refl) eq_refl (or_intror eq_refl))).
Defined.

(** X8: on a console that does not fail, when [agent.invoke] raises an
    exception that derives from [Exception], [run_agent] does not raise:
    it stops the spinner, prints the panel "Error running agent: "
    followed by [str(e)], and returns [None]. *)
Theorem run_agent_recovers (user_input : str) (s : Session) (e : exc) :
  quiet (env s) ->
  reply s [(lit "user", user_input)] = Raise e ->
  isinstance e Exception = true ->
  fst (run_agent user_input s) = Return None
  /\ emitted (run_agent user_input) s =
       [ Printed [request_panel user_input]; Printed []; spinner_on;
         Invoked [(lit "user", user_input)]; SpinnerStopped;
         Printed [agent_error_panel e]; Printed [] ].
Proof.
  intros Hq Hr He.
  pose proof (run_agent_quiet user_input s Hq) as H. cbv zeta in H.
  rewrite Hr, He in H.
  split.
  - now rewrite H.
  - apply (@emitted_intro _ (run_agent user_input) s
             [ Printed []; Printed [agent_error_panel e]; SpinnerStopped;
               Invoked [(lit "user", user_input)]; spinner_on;
               Printed []; Printed [request_panel user_input] ]).
    now rewrite H.
Qed.

Lemma run_agent_recovers_witness :
  fst (run_agent (lit "hi") (scripted_session [] [] [])) = Return None.
Proof.
  apply (proj1 (@run_agent_recovers (lit "hi") (scripted_session [] [] [])
                  network_down (fun _ _ => eq_refl) eq_refl eq_refl)).
Defined.

(** X9: when [agent.invoke] raises an exception that does not derive
    from [Exception] (the user presses Ctrl-C while the agent works),
    [run_agent] lets it through to its caller; the spinner has been
    stopped and nothing is printed after it. *)
Theorem run_agent_interrupted (user_input : str) (s : Session) (e : exc) :
  quiet (env s) ->
  reply s [(lit "user", user_input)] = Raise e ->
  isinstance e Exception = false ->
  fst (run_agent user_input s) = Raise e
  /\ emitted (run_agent user_input) s =
       [ Printed [request_panel user_input]; Printed []; spinner_on;
         Invoked [(lit "user", user_input)]; SpinnerStopped ].
Proof.
  intros Hq Hr He.
  pose proof (run_agent_quiet user_input s Hq) as H. cbv zeta in H.
  rewrite Hr, He in H.
  split.
  - now rewrite H.
  - apply (@emitted_intro _ (run_agent user_input) s
             [ SpinnerStopped; Invoked [(lit "user", user_input)];
               spinner_on; Printed [];
               Printed [request_panel user_input] ]).
    now rewrite H.
Qed.

Lemma run_agent_interrupted_witness :
  fst (run_agent (lit "hi") (scripted_session [] [Raise interrupt] [])) =
  Raise interrupt.
Proof.
  apply (proj1 (@run_agent_interrupted (lit "hi")
                  (scripted_session [] [Raise interrupt] [])
                  interrupt (fun _ _ => eq_refl) eq_refl eq_refl)).
Defined.

(** X10: the echo of the request is printed before the [try] block of
    [run_agent]: when that first [console.print] fails, the exception
    leaves [run_agent], whatever its class, and the agent is not
    called. *)
Theorem run_agent_echo_fault (user_input : str) (s : Session) (e : exc) :
  console_fault (env s) (printed (trace s)) [request_panel user_input] =
    Some e ->
  fst (run_agent user_input s) = Raise e
  /\ emitted (run_agent user_input) s =
       [Printed [request_panel user_input]].
Proof.
  intro Hc.
  assert (H : run_agent user_input s =
              (Raise e, log (Printed [request_panel user_input]) s)).
  { unfold run_agent, andthen. fold (request_panel user_input).
    unfold console_print at 1. now rewrite Hc. }
  split.
  - now rewrite H.
  - apply (@emitted_intro _ (run_agent user_input) s
             [Printed [request_panel user_input]]).
    now rewrite H.
Qed.

Lemma run_agent_echo_fault_witness :
  fst (run_agent (lit "list [/tmp]") (deaf_session [])) =
  Raise terminal_gone.
Proof.
  apply (proj1 (@run_agent_echo_fault (lit "list [/tmp]") (deaf_session [])
                  terminal_gone eq_refl)).
Defined.

(** ** One turn of the prompt loop *)

Lemma interrupt_is_no_exception (e : exc) :
  isinstance e KeyboardInterrupt = true -> isinstance e Exception = false.
Proof.
  unfold isinstance. destruct (exc_class e); intro H; vm_compute in *;
    congruence.
Qed.

Lemma exception_is_no_interrupt (e : exc) :
  isinstance e Exception = true -> isinstance e KeyboardInterrupt = false.
Proof.
  unfold isinstance. destruct (exc_class e); intro H; vm_compute in *;
    congruence.
Qed.

Lemma exit_word_tests (db : casing) (user_input : str) :
  In (map ascii_lower user_input) exit_words ->
  truthy user_input = true
  /\ existsb (str_eqb (lower db user_input))
             [lit "exit"; lit "quit"; lit "q"] = true.
Proof.
  intro Hin. split.
  - destruct user_input; [|reflexivity].
    vm_compute in Hin. intuition discriminate.
  - apply existsb_exists. exists (lower db user_input).
    split; [|apply str_eqb_refl].
    destruct Hin as [H | [H | [H | []]]];
      rewrite (@lower_ascii db user_input _ (eq_sym H) eq_refl);
      simpl; auto.
Qed.

Lemma ordinary_tests (db : casing) (user_input : str) :
  ordinary db user_input ->
  truthy user_input = true
  /\ existsb (str_eqb (lower db user_input))
             [lit "exit"; lit "quit"; lit "q"] = false
  /\ str_eqb (lower db user_input) (lit "help") = false
  /\ str_eqb (lower db user_input) (lit "config") = false.
Proof.
  intros [Hne Hnot].
  assert (Hno : forall w,
             In w [lit "exit"; lit "quit"; lit "q"; lit "help"; lit "config"] ->
             str_eqb (lower db user_input) w = false).
  { intros w Hw. destruct (str_eqb (lower db user_input) w) eqn:E;
      [|reflexivity].
    apply str_eqb_eq in E. rewrite E in Hnot. contradiction. }
  split; [now apply truthy_true_iff|].
  split; [|split; apply Hno; simpl; tauto].
  cbn [existsb]. rewrite !Hno by (simpl; tauto). reflexivity.
Qed.

Ltac enter_turn s :=
  unfold turn, attempt, andthen at 1, Prompt_ask;
  change (prompt_answer (env s) (prompted (trace s))
            (lit "[bold green]You[/bold green]")) with (typed s).

Lemma turn_exit_state (db : casing) (s : Session) (line : str) :
  quiet (env s) ->
  typed s = Return line ->
  In (map ascii_lower (strip line)) exit_words ->
  turn db s =
  (Return Break,
   log (Printed [goodbye_notice]) (log (Prompted you_prompt) s)).
Proof.
  intros Hq Ht Hin.
  destruct (exit_word_tests db (strip line) Hin) as [Htr Hex].
  enter_turn s. rewrite Ht. cbv beta iota zeta.
  rewrite Htr, Hex. cbn [negb]. unfold andthen.
  rewrite console_print_quiet by exact Hq. reflexivity.
Qed.

Lemma turn_blank_state (db : casing) (s : Session) (line : str) :
  typed s = Return line ->
  strip line = [] ->
  turn db s = (Return Continue, log (Prompted you_prompt) s).
Proof.
  intros Ht Hb.
  enter_turn s. rewrite Ht. cbv beta iota zeta. rewrite Hb.
  reflexivity.
Qed.

Lemma turn_error_state (db : casing) (s : Session) (e : exc) :
  quiet (env s) ->
  typed s = Raise e ->
  isinstance e Exception = true ->
  turn db s =
  (Return Continue,
   log (Printed [error_notice e]) (log (Prompted you_prompt) s)).
Proof.
  intros Hq Ht He.
  enter_turn s. rewrite Ht. cbv beta iota. cbn [handle].
  rewrite (exception_is_no_interrupt e He), He. unfold andthen.
  rewrite console_print_quiet by exact Hq. reflexivity.
Qed.

(** X11: on a console that does not fail, a line that reads exit, quit
    or q once its surrounding white space is removed and its ASCII
    capitals are made small leaves the loop: the farewell is printed
    and the agent is not called. *)
Theorem turn_exit (db : casing) (s : Session) (line : str) :
  quiet (env s) ->
  typed s = Return line ->
  In (map ascii_lower (strip line)) exit_words ->
  fst (turn db s) = Return Break
  /\ emitted (turn db) s = [Prompted you_prompt; Printed [goodbye_notice]].
Proof.
  intros Hq Ht Hin.
  pose proof (@turn_exit_state db s line Hq Ht Hin) as H.
  split.
  - now rewrite H.
  - apply (@emitted_intro _ (turn db) s
             [Printed [goodbye_notice]; Prompted you_prompt]).
    now rewrite H.
Qed.

Lemma turn_exit_witness :
  fst (turn ascii_only (scripted_session [Return (lit "  QUIT ")] [] [])) =
  Return Break.
Proof.
  apply (proj1 (@turn_exit ascii_only
                  (scripted_session [Return (lit "  QUIT ")] [] [])
                  (lit "  QUIT ") (fun _ _ => eq_refl) eq_refl
                  (or_intror (or_introl eq_refl)))).
Defined.

(** X12: a line that is empty or white space only starts the next turn
    at once: nothing is printed and the agent is not called. *)
Theorem turn_blank (db : casing) (s : Session) (line : str) :
  typed s = Return line ->
  strip line = [] ->
  fst (turn db s) = Return Continue
  /\ emitted (turn db) s = [Prompted you_prompt].
Proof.
  intros Ht Hb.
  pose proof (@turn_blank_state db s line Ht Hb) as H.
  split.
  - now rewrite H.
  - apply (@emitted_intro _ (turn db) s [Prompted you_prompt]).
    now rewrite H.
Qed.

Lemma turn_blank_witness :
  fst (turn ascii_only (scripted_session [Return (lit "   ")] [] [])) =
  Return Continue.
Proof.
  apply (proj1 (@turn_blank ascii_only
                  (scripted_session [Return (lit "   ")] [] [])
                  (lit "   ") eq_refl eq_refl)).
Defined.

(** What [run_agent] leaves behind when the agent is interrupted. *)
Lemma run_agent_interrupted_state (user_input : str) (s : Session)
    (e : exc) :
  quiet (env s) ->
  reply s [(lit "user", user_input)] = Raise e ->
  isinstance e Exception = false ->
  run_agent user_input s =
  (Raise e,
   log SpinnerStopped
     (log (Invoked [(lit "user", user_input)])
        (log spinner_on
           (log (Printed [])
              (log (Printed [request_panel user_input]) s))))).
Proof.
  intros Hq Hr He.
  pose proof (run_agent_quiet user_input s Hq) as H. cbv zeta in H.
  now rewrite Hr, He in H.
Qed.

(** X13: on a console that does not fail, a [KeyboardInterrupt] ends the
    loop with the notice "Session interrupted. Goodbye!", whether it is
    raised at the prompt or by the agent while [run_agent] waits for
    it. *)
Theorem turn_interrupt (db : casing) (s : Session) (e : exc) :
  quiet (env s) ->
  isinstance e KeyboardInterrupt = true ->
  (typed s = Raise e ->
   fst (turn db s) = Return Break
   /\ emitted (turn db) s =
        [Prompted you_prompt; Printed [interrupted_notice]])
  /\ (forall line,
        typed s = Return line ->
        ordinary db (strip line) ->
        reply s [(lit "user", strip line)] = Raise e ->
        fst (turn db s) = Return Break
        /\ emitted (turn db) s =
             [ Prompted you_prompt;
               Printed [request_panel (strip line)]; Printed [];
               spinner_on; Invoked [(lit "user", strip line)];
               SpinnerStopped; Printed [interrupted_notice] ]).
Proof.
  intros Hq Hk. split.
  - intro Ht.
    assert (H : turn db s =
                (Return Break,
                 log (Printed [interrupted_notice])
                   (log (Prompted you_prompt) s))).
    { enter_turn s. rewrite Ht. cbv beta iota. cbn [handle].
      rewrite Hk. unfold andthen.
      rewrite console_print_quiet by exact Hq. reflexivity. }
    split.
    + now rewrite H.
    + apply (@emitted_intro _ (turn db) s
               [Printed [interrupted_notice]; Prompted you_prompt]).
      now rewrite H.
  - intros line Ht Hord Hr.
    destruct (ordinary_tests Hord) as [Htr [Hex [Hh Hc]]].
    pose proof (@run_agent_interrupted_state (strip line)
                  (log (Prompted you_prompt) s) e Hq Hr
                  (interrupt_is_no_exception e Hk)) as Hrun.
    assert (H : turn db s =
                (Return Break,
                 log (Printed [interrupted_notice])
                   (log SpinnerStopped
                      (log (Invoked [(lit "user", strip line)])
                         (log spinner_on
                            (log (Printed [])
                               (log (Printed [request_panel (strip line)])
                                  (log (Prompted you_prompt) s)))))))).
    { enter_turn s. rewrite Ht. cbv beta iota zeta.
      rewrite Htr, Hex, Hh, Hc. cbn [negb]. unfold andthen at 1.
      unfold you_prompt in Hrun. rewrite Hrun. cbv beta iota.
      cbn [handle]. rewrite Hk. unfold andthen.
      rewrite console_print_quiet by exact Hq. reflexivity. }
    split.
    + now rewrite H.
    + apply (@emitted_intro _ (turn db) s
               [ Printed [interrupted_notice]; SpinnerStopped;
                 Invoked [(lit "user", strip line)]; spinner_on;
                 Printed []; Printed [request_panel (strip line)];
                 Prompted you_prompt ]).
      now rewrite H.
Qed.

Lemma turn_interrupt_witness :
  fst (turn ascii_only (scripted_session [Raise interrupt] [] [])) =
    Return Break
  /\ fst (turn ascii_only
            (scripted_session [Return (lit "list files")]
               [Raise interrupt] [])) = Return Break.
Proof.
  split.
  - apply (@turn_interrupt ascii_only
             (scripted_session [Raise interrupt] [] []) interrupt).
    + intros n objects. reflexivity.
    + reflexivity.
    + reflexivity.
  - refine (proj1 (proj2 (@turn_interrupt ascii_only
                            (scripted_session [Return (lit "list files")]
                               [Raise interrupt] [])
                            interrupt _ _)
                     (lit "list files") _ _ _)).
    + intros n objects. reflexivity.
    + reflexivity.
    + reflexivity.
    + split; vm_compute; intuition discriminate.
    + reflexivity.
Defined.

(** X14: on a console that does not fail, an exception deriving from
    [Exception] that is raised at the prompt does not end the loop: the
    notice "Error: " followed by [str(e)] is printed and the next turn
    begins. *)
Theorem turn_error (db : casing) (s : Session) (e : exc) :
  quiet (env s) ->
  typed s = Raise e ->
  isinstance e Exception = true ->
  fst (turn db s) = Return Continue
  /\ emitted (turn db) s = [Prompted you_prompt; Printed [error_notice e]].
Proof.
  intros Hq Ht He.
  pose proof (@turn_error_state db s e Hq Ht He) as H.
  split.
  - now rewrite H.
  - apply (@emitted_intro _ (turn db) s
             [Printed [error_notice e]; Prompted you_prompt]).
    now rewrite H.
Qed.

Lemma turn_error_witness :
  fst (turn ascii_only (scripted_session [] [] [])) = Return Continue.
Proof.
  apply (proj1 (@turn_error ascii_only (scripted_session [] [] [])
                  closed_input (fun _ _ => eq_refl) eq_refl eq_refl)).
Defined.

(** X15: the notice of the [except Exception] clause of the loop is
    printed outside any [try]: when an exception deriving from
    [Exception] is raised at the prompt and printing its notice fails
    in turn, the second exception leaves the loop. *)
Theorem turn_notice_fault (db : casing) (s : Session) (e e' : exc) :
  typed s = Raise e ->
  isinstance e Exception = true ->
  console_fault (env s) (printed (trace s)) [error_notice e] = Some e' ->
  fst (turn db s) = Raise e'
  /\ (forall turns, fst (prompt_loop db (S turns) s) = Raise e').
Proof.
  intros Ht He Hc.
  assert (H : turn db s =
              (Raise e',
               log (Printed [error_notice e])
                 (log (Prompted you_prompt) s))).
  { enter_turn s. rewrite Ht. cbv beta iota. cbn [handle].
    rewrite (exception_is_no_interrupt e He), He. unfold andthen.
    unfold console_print. cbn [env trace log printed].
    fold (error_notice e). rewrite Hc. reflexivity. }
  split.
  - now rewrite H.
  - intro turns. cbn [prompt_loop]. unfold andthen. now rewrite H.
Qed.

Lemma turn_notice_fault_witness :
  fst (turn ascii_only (deaf_session [])) = Raise terminal_gone.
Proof.
  apply (proj1 (@turn_notice_fault ascii_only (deaf_session [])
                  closed_input terminal_gone eq_refl eq_refl eq_refl)).
Defined.

(** On a console that does not fail, [run_agent] returns unless the
    agent raises outside [Exception]; it only adds to the log. *)
Lemma run_agent_settles (user_input : str) (s : Session) :
  quiet (env s) ->
  (forall e, reply s [(lit "user", user_input)] = Raise e ->
             isinstance e Exception = true) ->
  exists r new,
    run_agent user_input s =
    (Return r, {| env := env s; trace := new ++ trace s |}).
Proof.
  intros Hq Hr.
  pose proof (run_agent_quiet user_input s Hq) as H. cbv zeta in H.
  destruct (reply s [(lit "user", user_input)]) as [result | e].
  - destruct (messages result) as [[|first rest]|].
    + exists None,
        [ Printed [no_response_notice]; SpinnerStopped;
          Invoked [(lit "user", user_input)]; spinner_on; Printed [];
          Printed [request_panel user_input] ].
      exact H.
    + exists (Some (response_of (last rest first))),
        [ Printed [];
          Printed [response_panel (response_of (last rest first))];
          SpinnerStopped; Invoked [(lit "user", user_input)]; spinner_on;
          Printed []; Printed [request_panel user_input] ].
      exact H.
    + exists None,
        [ Printed [no_response_notice]; SpinnerStopped;
          Invoked [(lit "user", user_input)]; spinner_on; Printed [];
          Printed [request_panel user_input] ].
      exact H.
  - rewrite (Hr e eq_refl) in H.
    exists None,
      [ Printed []; Printed [agent_error_panel e]; SpinnerStopped;
        Invoked [(lit "user", user_input)]; spinner_on; Printed [];
        Printed [request_panel user_input] ].
    exact H.
Qed.

(** X16: on a console that does not fail, a line that is neither blank
    nor one of the commands of the loop is handed to [run_agent] with
    its surrounding white space removed, and the loop goes on whatever
    [run_agent] returns, also when the agent fails with an exception
    deriving from [Exception]: the turn is the prompt followed by what
    [run_agent] does. *)
Theorem turn_consults_agent (db : casing) (s : Session) (line : str) :
  quiet (env s) ->
  typed s = Return line ->
  ordinary db (strip line) ->
  (forall e, reply s [(lit "user", strip line)] = Raise e ->
             isinstance e Exception = true) ->
  fst (turn db s) = Return Continue
  /\ emitted (turn db) s =
       Prompted you_prompt
       :: emitted (run_agent (strip line)) (log (Prompted you_prompt) s).
Proof.
  intros Hq Ht Hord Hr.
  destruct (ordinary_tests Hord) as [Htr [Hex [Hh Hc]]].
  destruct (@run_agent_settles (strip line)
              (log (Prompted you_prompt) s) Hq Hr) as [r [new Hrun]].
  assert (H : turn db s =
              (Return Continue,
               {| env := env s;
                  trace := (new ++ [Prompted you_prompt]) ++ trace s |})).
  { enter_turn s. rewrite Ht. cbv beta iota zeta.
    rewrite Htr, Hex, Hh, Hc. cbn [negb]. unfold andthen at 1.
    unfold you_prompt in Hrun. rewrite Hrun. cbv beta iota.
    unfold pure. cbn [env trace log].
    now rewrite <- app_assoc. }
  split.
  - now rewrite H.
  - rewrite (@emitted_intro _ (turn db) s (new ++ [Prompted you_prompt]))
      by now rewrite H.
    rewrite (@emitted_intro _ (run_agent (strip line))
               (log (Prompted you_prompt) s) new)
      by now rewrite Hrun.
    now rewrite rev_app_distr.
Qed.

Lemma turn_consults_agent_witness :
  fst (turn ascii_only
         (scripted_session [Return (lit " list files ")]
            [Return {| messages := Some [user_echo; greeting] |}] [])) =
  Return Continue.
Proof.
  refine (proj1 (@turn_consults_agent ascii_only
                   (scripted_session [Return (lit " list files ")]
                      [Return {| messages := Some [user_echo; greeting] |}]
                      [])
                   (lit " list files ") _ _ _ _)).
  - intros n objects. reflexivity.
  - reflexivity.
  - split; vm_compute; intuition discriminate.
  - intros e H. vm_compute in H. discriminate H.
Defined.

(** ** The prompt loop *)

Lemma prompt_loop_S (db : casing) (n : nat) (s : Session) :
  prompt_loop db (S n) s =
  match turn db s with
  | (Return Break, s') => (Return (Some tt), s')
  | (Return Continue, s') => prompt_loop db n s'
  | (Raise e, s') => (Raise e, s')
  end.
Proof.
  cbn [prompt_loop]. unfold andthen.
  destruct (turn db s) as [[[|]|e] s']; reflexivity.
Qed.

(** X17: on a console that does not fail, when every [Prompt.ask] raises
    an exception deriving from [Exception] (the standard input is
    closed), the loop never ends: after any number of turns it is still
    going, it has asked once per turn and it has never called the
    agent. *)
Theorem loop_spins_without_input (db : casing) (turns : nat) :
  forall s,
    quiet (env s) ->
    (forall n, exists e,
        prompt_answer (env s) n you_prompt = Raise e
        /\ isinstance e Exception = true) ->
    fst (prompt_loop db turns s) = Return None
    /\ prompted (trace (snd (prompt_loop db turns s))) =
         prompted (trace s) + turns
    /\ invoked (trace (snd (prompt_loop db turns s))) = invoked (trace s).
Proof.
  induction turns as [|n IH]; intros s Hq Hp.
  - cbn. auto.
  - destruct (Hp (prompted (trace s))) as [e [Ht He]].
    rewrite prompt_loop_S, (@turn_error_state db s e Hq Ht He).
    destruct (IH (log (Printed [error_notice e])
                    (log (Prompted you_prompt) s)) Hq Hp)
      as [H1 [H2 H3]].
    rewrite H1, H2, H3. cbn [trace log prompted invoked].
    repeat split. lia.
Qed.

Lemma loop_spins_without_input_witness :
  fst (prompt_loop ascii_only 25 (scripted_session [] [] [])) = Return None.
Proof.
  refine (proj1 (@loop_spins_without_input ascii_only 25
                   (scripted_session [] [] []) _ _)).
  - intros n objects. reflexivity.
  - intro n. exists closed_input. split; [|reflexivity].
    cbn. destruct n; reflexivity.
Defined.

(** X18: on a console that does not fail, after any number of blank
    lines a line that reads exit, quit or q ends the loop, however many
    turns it would otherwise go on: no prompt is asked after it and the
    agent is never called. *)
Theorem loop_ends_at_exit (db : casing) (blanks : nat) :
  forall (s : Session) (line : str) (more : nat),
    quiet (env s) ->
    (forall i, i < blanks ->
       exists blank,
         prompt_answer (env s) (prompted (trace s) + i) you_prompt =
           Return blank
         /\ strip blank = []) ->
    prompt_answer (env s) (prompted (trace s) + blanks) you_prompt =
      Return line ->
    In (map ascii_lower (strip line)) exit_words ->
    fst (prompt_loop db (S (blanks + more)) s) = Return (Some tt)
    /\ prompted (trace (snd (prompt_loop db (S (blanks + more)) s))) =
         prompted (trace s) + S blanks
    /\ invoked (trace (snd (prompt_loop db (S (blanks + more)) s))) =
         invoked (trace s).
Proof.
  induction blanks as [|k IH]; intros s line more Hq Hb Hl Hin.
  - rewrite Nat.add_0_r in Hl.
    rewrite prompt_loop_S, (@turn_exit_state db s line Hq Hl Hin).
    cbn [fst snd trace log prompted invoked].
    repeat split. lia.
  - destruct (Hb 0 (Nat.lt_0_succ k)) as [blank [Ht Hs]].
    rewrite Nat.add_0_r in Ht.
    change (S (S k + more)) with (S (S (k + more))).
    rewrite prompt_loop_S, (@turn_blank_state db s blank Ht Hs).
    destruct (IH (log (Prompted you_prompt) s) line more Hq) as [H1 [H2 H3]].
    + intros i Hi. cbn [trace log prompted env].
      destruct (Hb (S i) (proj1 (Nat.succ_lt_mono i k) Hi))
        as [b [Hb1 Hb2]].
      exists b. split; [|exact Hb2].
      rewrite <- Hb1. f_equal. lia.
    + cbn [trace log prompted env]. rewrite <- Hl. f_equal. lia.
    + exact Hin.
    + rewrite H1, H2, H3. cbn [trace log prompted invoked].
      repeat split. lia.
Qed.

Lemma loop_ends_at_exit_witness :
  fst (prompt_loop ascii_only 10
         (scripted_session [Return []; Return (lit "  "); Return (lit "Exit")]
            [] [])) = Return (Some tt).
Proof.
  refine (proj1 (@loop_ends_at_exit ascii_only 2
                   (scripted_session
                      [Return []; Return (lit "  "); Return (lit "Exit")]
                      [] [])
                   (lit "Exit") 7 _ _ _ _)).
  - intros n objects. reflexivity.
  - intros i Hi. destruct i as [|[|i]].
    + exists []. split; reflexivity.
    + exists (lit "  "). split; reflexivity.
    + lia.
  - reflexivity.
  - left. reflexivity.
Defined.

(** ** The commands of the loop that stay in the shell *)

Lemma for_each_prints {A} (l : list A) (body : A -> UI unit)
    (f : A -> list renderable) :
  (forall x s, quiet (env s) ->
               body x s = (Return tt, log (Printed (f x)) s)) ->
  forall s,
    quiet (env s) ->
    for_each l body s =
    (Return tt,
     {| env := env s;
        trace := rev (map (fun x => Printed (f x)) l) ++ trace s |}).
Proof.
  intro Hbody. induction l as [|x l IH]; intros s Hq.
  - destruct s; reflexivity.
  - cbn [for_each]. unfold andthen. rewrite (Hbody x s Hq).
    rewrite (IH (log (Printed (f x)) s) Hq).
    cbn [env trace log map rev]. now rewrite <- app_assoc.
Qed.

Lemma show_examples_state (s : Session) :
  quiet (env s) ->
  show_examples s =
  (Return tt,
   {| env := env s; trace := rev examples_output ++ trace s |}).
Proof.
  intro Hq. unfold show_examples, andthen.
  rewrite console_print_quiet by exact Hq. cbv beta iota.
  rewrite (@for_each_prints _ _ _
             (fun p : nat * str =>
                [Str (lit "  [dim]" +++ str_of_nat (fst p)
                      +++ lit ".[/dim] [white]" +++ snd p
                      +++ lit "[/white]")])).
  - cbv beta iota. rewrite console_print_quiet by exact Hq.
    reflexivity.
  - intros [i example] s' Hq'. cbn [fst snd].
    now rewrite console_print_quiet by exact Hq'.
  - exact Hq.
Qed.

Example examples_numbered_from_one :
  nth 1 examples_output (Printed []) =
    Printed [Str (lit "  [dim]1.[/dim] [white]List all files in the current directory[/white]")]
  /\ nth 5 examples_output (Printed []) =
       Printed [Str (lit "  [dim]5.[/dim] [white]Show all running services[/white]")]
  /\ List.length examples_output = 7.
Proof. repeat split. Qed.

Lemma show_config_state (s : Session) :
  quiet (env s) ->
  show_config s =
  (Return tt,
   log (Printed [])
     (log (Printed [config_panel (langsmith_cell (env s))]) s)).
Proof.
  intro Hq. unfold show_config, andthen, os_getenv. cbv beta iota zeta.
  fold (langsmith_cell (env s)).
  fold (config_panel (langsmith_cell (env s))).
  rewrite console_print_quiet by exact Hq. cbv beta iota.
  now rewrite console_print_quiet by exact Hq.
Qed.

(** X19: [show_config] reports LangSmith as "Enabled" exactly when the
    environment variable LANGSMITH_TRACING is set to the four letters
    [true]; when it is unset or holds anything else, in whatever case,
    the table says "Disabled". *)
Theorem show_config_langsmith (s : Session) :
  quiet (env s) ->
  fst (show_config s) = Return tt
  /\ (environ (env s) (lit "LANGSMITH_TRACING") = Some (lit "true") ->
      emitted show_config s =
        [Printed [config_panel (lit "Enabled")]; Printed []])
  /\ (environ (env s) (lit "LANGSMITH_TRACING") <> Some (lit "true") ->
      emitted show_config s =
        [Printed [config_panel (lit "Disabled")]; Printed []]).
Proof.
  intro Hq. pose proof (show_config_state s Hq) as H.
  split; [now rewrite H|].
  split; intro Hv.
  - apply (@emitted_intro _ show_config s
             [Printed []; Printed [config_panel (lit "Enabled")]]).
    rewrite H. unfold langsmith_cell. rewrite Hv, str_eqb_refl.
    reflexivity.
  - apply (@emitted_intro _ show_config s
             [Printed []; Printed [config_panel (lit "Disabled")]]).
    rewrite H. unfold langsmith_cell.
    destruct (environ (env s) (lit "LANGSMITH_TRACING")) as [v|];
      [|reflexivity].
    destruct (str_eqb v (lit "true")) eqn:E; [|reflexivity].
    apply str_eqb_eq in E. subst v. now elim Hv.
Qed.

Lemma show_config_langsmith_witness :
  emitted show_config
    (scripted_session [] [] [(lit "LANGSMITH_TRACING", lit "true")]) =
    [Printed [config_panel (lit "Enabled")]; Printed []]
  /\ emitted show_config
       (scripted_session [] [] [(lit "LANGSMITH_TRACING", lit "True")]) =
       [Printed [config_panel (lit "Disabled")]; Printed []].
Proof.
  split.
  - refine (proj1 (proj2 (@show_config_langsmith
                            (scripted_session [] []
                               [(lit "LANGSMITH_TRACING", lit "true")]) _))
              _).
    + intros n objects. reflexivity.
    + reflexivity.
  - refine (proj2 (proj2 (@show_config_langsmith
                            (scripted_session [] []
                               [(lit "LANGSMITH_TRACING", lit "True")]) _))
              _).
    + intros n objects. reflexivity.
    + vm_compute. discriminate.
Defined.

Lemma turn_help_state (db : casing) (s : Session) (line : str) :
  quiet (env s) ->
  typed s = Return line ->
  map ascii_lower (strip line) = lit "help" ->
  turn db s =
  (Return Continue,
   {| env := env s;
      trace := (rev examples_output ++ [Printed []; Prompted you_prompt])
               ++ trace s |}).
Proof.
  intros Hq Ht Hw.
  pose proof (@lower_ascii db (strip line) _ Hw eq_refl) as Hlow.
  assert (Htr : truthy (strip line) = true)
    by (destruct (strip line); [discriminate Hw | reflexivity]).
  assert (Hex : existsb (str_eqb (lit "help"))
                        [lit "exit"; lit "quit"; lit "q"] = false)
    by reflexivity.
  assert (Hh : str_eqb (lit "help") (lit "help") = true) by reflexivity.
  enter_turn s. rewrite Ht. cbv beta iota zeta.
  rewrite Hlow, Htr, Hex, Hh. cbn [negb]. unfold andthen.
  rewrite console_print_quiet by exact Hq. cbv beta iota.
  rewrite show_examples_state by exact Hq. cbv beta iota.
  unfold pure, log. cbn [env trace].
  now rewrite <- app_assoc.
Qed.

Lemma turn_config_state (db : casing) (s : Session) (line : str) :
  quiet (env s) ->
  typed s = Return line ->
  map ascii_lower (strip line) = lit "config" ->
  turn db s =
  (Return Continue,
   log (Printed [])
     (log (Printed [config_panel (langsmith_cell (env s))])
        (log (Printed []) (log (Prompted you_prompt) s)))).
Proof.
  intros Hq Ht Hw.
  pose proof (@lower_ascii db (strip line) _ Hw eq_refl) as Hlow.
  assert (Htr : truthy (strip line) = true)
    by (destruct (strip line); [discriminate Hw | reflexivity]).
  assert (Hex : existsb (str_eqb (lit "config"))
                        [lit "exit"; lit "quit"; lit "q"] = false)
    by reflexivity.
  assert (Hh : str_eqb (lit "config") (lit "help") = false) by reflexivity.
  assert (Hc : str_eqb (lit "config") (lit "config") = true)
    by reflexivity.
  enter_turn s. rewrite Ht. cbv beta iota zeta.
  rewrite Hlow, Htr, Hex, Hh, Hc. cbn [negb]. unfold andthen.
  rewrite console_print_quiet by exact Hq. cbv beta iota.
  rewrite show_config_state by exact Hq. reflexivity.
Qed.

(** X20: on a console that does not fail, the lines help and config (in
    any mix of ASCII capitals and small letters, with white space around
    them) are answered by the shell itself: after an empty line the
    examples, numbered from 1, or the configuration panel are printed,
    the loop goes on, and the agent is not called. *)
Theorem turn_local_commands (db : casing) (s : Session) (line : str) :
  quiet (env s) ->
  typed s = Return line ->
  (map ascii_lower (strip line) = lit "help" ->
   fst (turn db s) = Return Continue
   /\ emitted (turn db) s =
        Prompted you_prompt :: Printed [] :: examples_output
   /\ invoked (trace (snd (turn db s))) = invoked (trace s))
  /\ (map ascii_lower (strip line) = lit "config" ->
      fst (turn db s) = Return Continue
      /\ emitted (turn db) s =
           [ Prompted you_prompt; Printed [];
             Printed [config_panel (langsmith_cell (env s))]; Printed [] ]
      /\ invoked (trace (snd (turn db s))) = invoked (trace s)).
Proof.
  intros Hq Ht. split; intro Hw.
  - pose proof (@turn_help_state db s line Hq Ht Hw) as H.
    split; [now rewrite H|]. split.
    + rewrite (@emitted_intro _ (turn db) s
                 (rev examples_output ++ [Printed []; Prompted you_prompt]))
        by now rewrite H.
      rewrite rev_app_distr, rev_involutive. reflexivity.
    + rewrite H. reflexivity.
  - pose proof (@turn_config_state db s line Hq Ht Hw) as H.
    split; [now rewrite H|]. split.
    + apply (@emitted_intro _ (turn db) s
               [ Printed [];
                 Printed [config_panel (langsmith_cell (env s))];
                 Printed []; Prompted you_prompt ]).
      now rewrite H.
    + rewrite H. reflexivity.
Qed.

Lemma turn_local_commands_witness :
  fst (turn ascii_only (scripted_session [Return (lit " Help ")] [] [])) =
    Return Continue
  /\ fst (turn ascii_only
            (scripted_session [Return (lit "CONFIG")] [] [])) =
       Return Continue.
Proof.
  split.
  - refine (proj1 (proj1 (@turn_local_commands ascii_only
                            (scripted_session [Return (lit " Help ")] [] [])
                            (lit " Help ") _ _) _)).
    + intros n objects. reflexivity.
    + reflexivity.
    + reflexivity.
  - refine (proj1 (proj2 (@turn_local_commands ascii_only
                            (scripted_session [Return (lit "CONFIG")] [] [])
                            (lit "CONFIG") _ _) _)).
    + intros n objects. reflexivity.
    + reflexivity.
    + reflexivity.
Defined.
